(** * go-posh: the shortcut resolution engine of [lib/go.py]

    A shallow embedding of the shortcut store ([get_default_shortcuts],
    [set_shortcut], [get_shortcut]), the prefix resolver
    ([get_shortcut_prefix]), the path resolution engine ([resolve_path],
    [resolve_full_path]) and the grouping done by [print_shortcuts],
    together with the parts of the Python library they call
    (str methods, [posixpath], [fnmatch]) on a POSIX platform. *)

From Stdlib Require Import String Ascii List Bool Arith Lia Permutation Sorted.
Import ListNotations.
Open Scope list_scope.
Open Scope string_scope.

(* ================================================================== *)
(** * Exceptions and results *)

(** [GoError(msg)] is the module's own exception; [KeyError] comes from
    a failed dict subscript, [OSError] from [os.listdir]. *)
Inductive exn : Type :=
| GoError (msg : string)
| KeyError (key : string)
| OSError (path : string).

Inductive result (A : Type) : Type :=
| Ok (a : A)
| Raise (e : exn).
Arguments Ok {A} a.
Arguments Raise {A} e.

Definition bind {A B : Type} (r : result A) (k : A -> result B) : result B :=
  match r with
  | Ok a => k a
  | Raise e => Raise e
  end.

Notation "x <- r ;; k" := (bind r (fun x => k))
  (at level 61, r at next level, right associativity).

(* ================================================================== *)
(** * Python str methods used by go.py *)

Module Py.

(** [s.startswith(p)] *)
Definition startswith (s p : string) : bool := String.prefix p s.

(** [s.endswith(c)] for a one-character [c] *)
Fixpoint endswith (s : string) (c : ascii) : bool :=
  match s with
  | EmptyString => false
  | String a EmptyString => Ascii.eqb a c
  | String _ s' => endswith s' c
  end.

(** [s[:n]] *)
Fixpoint slice_to (n : nat) (s : string) : string :=
  match n, s with
  | S n', String c s' => String c (slice_to n' s')
  | _, _ => EmptyString
  end.

(** [s[n:]] *)
Fixpoint slice_from (n : nat) (s : string) : string :=
  match n, s with
  | S n', String _ s' => slice_from n' s'
  | _, _ => s
  end.

(** [s.find(c)]: [None] stands for -1 *)
Fixpoint find (s : string) (c : ascii) : option nat :=
  match s with
  | EmptyString => None
  | String a s' => if Ascii.eqb a c then Some 0 else option_map S (find s' c)
  end.

(** [s.rfind(c) + 1]: the index just after the last [c], 0 when absent *)
Fixpoint rfind_succ (s : string) (c : ascii) : nat :=
  match s with
  | EmptyString => 0
  | String a s' =>
      match rfind_succ s' c with
      | 0 => if Ascii.eqb a c then 1 else 0
      | S i => S (S i)
      end
  end.

(** [s.rstrip(c)] *)
Fixpoint rstrip (s : string) (c : ascii) : string :=
  match s with
  | EmptyString => EmptyString
  | String a s' =>
      match rstrip s' c with
      | EmptyString => if Ascii.eqb a c then EmptyString else String a EmptyString
      | r => String a r
      end
  end.

(** [c * n] *)
Fixpoint repeat_char (c : ascii) (n : nat) : string :=
  match n with
  | 0 => EmptyString
  | S n' => String c (repeat_char c n')
  end.

(** [s.split(c)] *)
Fixpoint split (s : string) (c : ascii) : list string :=
  match s with
  | EmptyString => [EmptyString]
  | String a s' =>
      if Ascii.eqb a c then EmptyString :: split s' c
      else match split s' c with
           | h :: t => String a h :: t
           | [] => [String a EmptyString]
           end
  end.

(** [sep.join(l)] *)
Fixpoint join (sep : string) (l : list string) : string :=
  match l with
  | [] => EmptyString
  | [x] => x
  | x :: rest => x ++ sep ++ join sep rest
  end.

(** [sub in s] *)
Fixpoint contains (s sub : string) : bool :=
  String.prefix sub s ||
  match s with
  | EmptyString => false
  | String _ s' => contains s' sub
  end.


(** truth value of an object that is [None] or a str *)
Definition truthy (v : option string) : bool :=
  match v with
  | Some s => negb (s =? "")
  | None => false
  end.

(** [if v:] on such an object: the str it is when the test passes *)
Definition if_truthy (v : option string) : option string :=
  if truthy v then v else None.

(** [a <= b] on str: code point order *)
Definition str_le (a b : string) : bool := String.leb a b.

Fixpoint insert_sorted (x : string) (l : list string) : list string :=
  match l with
  | [] => [x]
  | y :: l' => if str_le x y then x :: l else y :: insert_sorted x l'
  end.

(** [l.sort()] on a list of str *)
Definition sort (l : list string) : list string :=
  fold_right insert_sorted [] l.

End Py.

(* ================================================================== *)
(** * posixpath: [os.path] on a POSIX platform *)

Module posixpath.

Definition sep : string := "/".
Definition curdir : string := ".".
Definition pardir : string := "..".

(** [os.path.join(a, b)] *)
Definition join (a b : string) : string :=
  if Py.startswith b sep then b
  else if (a =? "") || Py.endswith a "/" then a ++ b
  else a ++ sep ++ b.

(** [os.path.split(p)] *)
Definition split (p : string) : string * string :=
  let i := Py.rfind_succ p "/" in
  let head := Py.slice_to i p in
  let tail := Py.slice_from i p in
  let head :=
    if negb (head =? "") && negb (head =? Py.repeat_char "/" (String.length head))
    then Py.rstrip head "/" else head in
  (head, tail).

(** one turn of the loop of [normpath] over [comps] *)
Definition normpath_step (initial_slashes : nat) (new_comps : list string)
  (comp : string) : list string :=
  if (comp =? "") || (comp =? ".") then new_comps
  else if negb (comp =? "..")
          || (Nat.eqb initial_slashes 0 && Nat.eqb (List.length new_comps) 0)
          || (negb (Nat.eqb (List.length new_comps) 0)
              && (List.last new_comps "" =? ".."))
       then (new_comps ++ [comp])%list
       else List.removelast new_comps.

(** [os.path.normpath(path)] *)
Definition normpath (path : string) : string :=
  if path =? "" then "."
  else
    let initial_slashes :=
      if Py.startswith path "/" then
        if Py.startswith path "//" && negb (Py.startswith path "///")
        then 2 else 1
      else 0 in
    let comps := Py.split path "/" in
    let new_comps := fold_left (normpath_step initial_slashes) comps [] in
    let path := Py.join "/" new_comps in
    let path := Py.repeat_char "/" initial_slashes ++ path in
    if path =? "" then "." else path.

End posixpath.

(* ================================================================== *)
(** * fnmatch: shell-style patterns, as [fnmatch.translate] reads them *)

Module fnmatch.

Inductive class_item : Type :=
| CChar (c : ascii)
| CRange (lo hi : ascii).

Inductive token : Type :=
| TStar                                   (* [*]: any run of characters *)
| TAny                                    (* [?]: any one character *)
| TLit (c : ascii)                        (* the character itself *)
| TClass (negated : bool) (items : list class_item).   (* [[seq]], [[!seq]] *)

(** the body of a bracket expression that starts right after [[]: an
    optional [!], an optional literal []], then everything up to the next
    []]; [None] when the bracket is never closed *)
Fixpoint until_close (s : list ascii) : option (list ascii) :=
  match s with
  | [] => None
  | c :: s' =>
      if Ascii.eqb c "]" then Some []
      else option_map (cons c) (until_close s')
  end.

Definition bracket_body (s : list ascii) : option (list ascii) :=
  let (bang, s1) :=
    match s with
    | c :: s' => if Ascii.eqb c "!" then ([c], s') else ([], s)
    | [] => ([], s)
    end in
  let (brak, s2) :=
    match s1 with
    | c :: s' => if Ascii.eqb c "]" then ([c], s') else ([], s1)
    | [] => ([], s1)
    end in
  option_map (fun body => bang ++ brak ++ body)%list (until_close s2).

(** the members of a set: [x-y] with a hyphen that is neither first nor
    last is a range, everything else stands for itself *)
Fixpoint class_items (s : list ascii) : list class_item :=
  match s with
  | [] => []
  | x :: t1 =>
      match t1 with
      | h :: y :: t3 =>
          if Ascii.eqb h "-" then CRange x y :: class_items t3
          else CChar x :: class_items t1
      | _ => CChar x :: class_items t1
      end
  end.

Definition parse_class (body : list ascii) : token :=
  match body with
  | c :: rest =>
      if Ascii.eqb c "!" then TClass true (class_items rest)
      else TClass false (class_items body)
  | [] => TClass false []
  end.

(** [skip] counts the characters of a bracket expression still to pass *)
Fixpoint tokens (skip : nat) (pat : list ascii) : list token :=
  match pat with
  | [] => []
  | c :: rest =>
      match skip with
      | S k => tokens k rest
      | 0 =>
          if Ascii.eqb c "*" then TStar :: tokens 0 rest
          else if Ascii.eqb c "?" then TAny :: tokens 0 rest
          else if Ascii.eqb c "[" then
            match bracket_body rest with
            | Some body => parse_class body :: tokens (S (List.length body)) rest
            | None => TLit c :: tokens 0 rest
            end
          else TLit c :: tokens 0 rest
      end
  end.

Definition item_matches (c : ascii) (it : class_item) : bool :=
  match it with
  | CChar x => Ascii.eqb x c
  | CRange lo hi =>
      Nat.leb (nat_of_ascii lo) (nat_of_ascii c)
      && Nat.leb (nat_of_ascii c) (nat_of_ascii hi)
  end.

Definition token_matches (t : token) (c : ascii) : bool :=
  match t with
  | TStar => true
  | TAny => true
  | TLit x => Ascii.eqb x c
  | TClass negated items => xorb negated (existsb (item_matches c) items)
  end.

(** does the whole of [s] match the token sequence *)
Fixpoint matches (toks : list token) (s : list ascii) : bool :=
  match toks with
  | [] => match s with [] => true | _ => false end
  | TStar :: toks' =>
      (fix star (s : list ascii) : bool :=
         matches toks' s
         || match s with
            | [] => false
            | _ :: s' => star s'
            end) s
  | t :: toks' =>
      match s with
      | [] => false
      | c :: s' => token_matches t c && matches toks' s'
      end
  end.

(** [fnmatch.fnmatch(name, pat)]; [os.path.normcase] is the identity *)
Definition fnmatch (name pat : string) : bool :=
  matches (tokens 0 (list_ascii_of_string pat)) (list_ascii_of_string name).

End fnmatch.

(* ================================================================== *)
(** * The process environment and the filesystem *)

(** What go.py reads from [os.environ], [tempfile] and the password
    database. *)
Record Env : Type := {
  HOME : option string;
  USERPROFILE : option string;
  OLDPWD : option string;
  gettempdir : string;
  pw_dir : option string
}.

(** [os.path.expanduser('~')] on POSIX: [$HOME], else the password
    database entry, without trailing slashes; ['~'] itself when neither
    is known. *)
Definition expanduser_tilde (env : Env) : string :=
  let userhome :=
    match HOME env with
    | Some h => Some h
    | None => pw_dir env
    end in
  match userhome with
  | None => "~"
  | Some h =>
      let h := Py.rstrip h "/" in
      if h =? "" then "/" else h
  end.

(** The filesystem as the resolution engine observes it:
    [os.path.isdir] and [os.listdir] ([None]: the call raises). *)
Record FS : Type := {
  isdir : string -> bool;
  listdir : string -> option (list string)
}.

(* ================================================================== *)
(** * dict: insertion-ordered, one value per key *)

Definition dict : Type := list (string * string).

(** [d[k]], [None] standing for [KeyError] *)
Fixpoint dict_get (d : dict) (k : string) : option string :=
  match d with
  | [] => None
  | (k', v) :: d' => if k' =? k then Some v else dict_get d' k
  end.

(** [d[k] = v]: an existing key keeps its place *)
Fixpoint dict_set (d : dict) (k v : string) : dict :=
  match d with
  | [] => [(k, v)]
  | (k', v') :: d' =>
      if k' =? k then (k', v) :: d' else (k', v') :: dict_set d' k v
  end.

(** iteration over a dict yields its keys in insertion order *)
Definition dict_keys (d : dict) : list string := map fst d.

(** [d[k]] as an expression that may raise *)
Definition subscript (d : dict) (k : string) : result string :=
  match dict_get d k with
  | Some v => Ok v
  | None => Raise (KeyError k)
  end.

(* ================================================================== *)
(** * The shortcut store *)

(** The [<shortcut name=... value=.../>] children of the [<shortcuts>]
    root of shortcuts.xml, in document order. *)
Definition xml_doc : Type := list (string * string).

(** The shortcuts file: [None] when [os.path.isfile] says it is absent. *)
Definition shortcuts_file : Type := option xml_doc.

Definition get_default_shortcuts (env : Env) : dict :=
  let shortcuts : dict :=
    [ (".", posixpath.curdir);
      ("..", posixpath.pardir);
      ("...", posixpath.join posixpath.pardir posixpath.pardir);
      ("tmp", gettempdir env) ] in
  let shortcuts :=
    match HOME env with
    | Some h => dict_set shortcuts "~" h
    | None =>
        match USERPROFILE env with
        | Some h => dict_set shortcuts "~" h
        | None => shortcuts
        end
    end in
  let shortcuts :=
    match OLDPWD env with
    | Some d => dict_set shortcuts "-" d
    | None => shortcuts
    end in
  shortcuts.

Definition does_not_exist_msg (name : string) : string :=
  "shortcut '" ++ name ++ "' does not exist".

(** the [for ... else] over the [<shortcut>] elements of [set_shortcut] *)
Fixpoint set_shortcut_loop (name : string) (value : option string)
  (elems : xml_doc) : result xml_doc :=
  match elems with
  | (n, v) :: rest =>
      if n =? name then
        match Py.if_truthy value with
        | Some new => Ok ((n, new) :: rest)       (* setAttribute *)
        | None => Ok rest                          (* removeChild *)
        end
      else
        rest' <- set_shortcut_loop name value rest ;;
        Ok ((n, v) :: rest')
  | [] =>
      match Py.if_truthy value with
      | Some new => Ok [(name, new)]              (* appendChild *)
      | None => Raise (GoError (does_not_exist_msg name))
      end
  end.

(** [set_shortcut(name, value)]: the outcome and the shortcuts file it
    leaves behind (untouched when the call raises before the write). *)
Definition set_shortcut (name : string) (value : option string)
  (file : shortcuts_file) : result unit * shortcuts_file :=
  let dom := match file with Some doc => doc | None => [] end in
  match set_shortcut_loop name value dom with
  | Ok dom' => (Ok tt, Some dom')
  | Raise e => (Raise e, file)
  end.

(** [shortcuts[name] = value] for one [shortcut_node] *)
Definition load_entry (shortcuts : dict) (nv : string * string) : dict :=
  dict_set shortcuts (fst nv) (snd nv).

(** [get_shortcut()]: the defaults, overwritten by the file's entries *)
Definition get_shortcut (env : Env) (file : shortcuts_file) : dict :=
  let shortcuts := get_default_shortcuts env in
  match file with
  | Some doc =>
      fold_left load_entry doc shortcuts
  | None => shortcuts
  end.

(* ================================================================== *)
(** * The prefix resolver *)

Definition ambiguous_shortcut_msg (path : string) (ret : list string) : string :=
  "ambiguous shortcut '" ++ path ++ "' - " ++ Py.join ", " ret.

(** the [for name in shortcuts] loop: [inl name] is the early return *)
Fixpoint prefix_loop (path : string) (names ret : list string)
  : string + list string :=
  match names with
  | [] => inr ret
  | name :: names' =>
      if name =? path then inl name
      else if Py.startswith name path
           then prefix_loop path names' (ret ++ [name])%list
           else prefix_loop path names' ret
  end.

(** [get_shortcut_prefix(path, shortcuts)]; [None] is the returned 0 *)
Definition get_shortcut_prefix (path : string) (shortcuts : dict)
  : result (option string) :=
  if path =? "" then Ok None
  else
    match prefix_loop path (dict_keys shortcuts) [] with
    | inl name => Ok (Some name)
    | inr ret =>
        match ret with
        | [r] => Ok (Some r)
        | [] => Ok None
        | _ => Raise (GoError (ambiguous_shortcut_msg path ret))
        end
    end.

(* ================================================================== *)
(** * The sub-path walk *)

Definition ambiguous_path_msg (path found directory : string) : string :=
  "Abmiguous path under " ++ path ++ ": '" ++ found ++ "', '" ++ directory ++ "'".

Definition not_found_msg (prefix comp path : string) : string :=
  if prefix =? "."
  then "Shortcut or directory not found: '" ++ comp ++ "'"
  else "Unable to resolve '" ++ comp ++ "' under directory '" ++ path ++ "'".

(** the [while head != last_head] loop that cuts [suffix] into [comps] *)
Fixpoint split_loop (fuel : nat) (head last_head : string)
  (comps : list string) : option (list string) :=
  if head =? last_head then Some comps
  else
    match fuel with
    | 0 => None
    | S fuel' =>
        let (head', tail) := posixpath.split head in
        split_loop fuel' head' head (comps ++ [tail])%list
    end.

(** [comps] after [comps.reverse()]; the loop ends within
    [len(suffix) + 1] turns (see [split_loop_terminates]) *)
Definition path_components (suffix : string) : list string :=
  match split_loop (S (String.length suffix)) suffix "" [] with
  | Some comps => rev comps
  | None => []
  end.

(** does [directory] pass the test of the listing loop *)
Definition candidate (fs : FS) (path comp directory : string) : bool :=
  fnmatch.fnmatch directory (comp ++ "*")
  && isdir fs (posixpath.join path directory).

(** the [for directory in os.listdir(path)] loop *)
Fixpoint find_dir (fs : FS) (path comp found : string)
  (entries : list string) : result string :=
  match entries with
  | [] => Ok found
  | directory :: entries' =>
      if candidate fs path comp directory then
        if found =? "" then find_dir fs path comp directory entries'
        else Raise (GoError (ambiguous_path_msg path found directory))
      else find_dir fs path comp found entries'
  end.

(** one turn of [for comp in comps]: the new [path] *)
Definition resolve_comp (fs : FS) (prefix path comp : string) : result string :=
  let tmp := posixpath.join path comp in
  if isdir fs tmp then Ok tmp
  else
    entries <- match listdir fs path with
               | Some l => Ok l
               | None => Raise (OSError path)
               end ;;
    found <- find_dir fs path comp "" entries ;;
    if found =? "" then Raise (GoError (not_found_msg prefix comp path))
    else Ok (posixpath.join path found).

Fixpoint walk_comps (fs : FS) (prefix path : string) (comps : list string)
  : result string :=
  match comps with
  | [] => Ok path
  | comp :: comps' =>
      path' <- resolve_comp fs prefix path comp ;;
      walk_comps fs prefix path' comps'
  end.

Definition resolve_full_path (fs : FS) (prefix suffix : string) : result string :=
  let tmp := posixpath.join prefix suffix in
  if isdir fs tmp then Ok tmp
  else walk_comps fs prefix (posixpath.normpath prefix) (path_components suffix).

(* ================================================================== *)
(** * The path resolution engine *)

Definition backslash : ascii := ascii_of_nat 92.

(** the split of [path] at its first [/], or else its first backslash:
    [tag] and [suffix] ([None] when there is no separator) *)
Definition split_tag (path : string) : string * option string :=
  let tagend :=
    match Py.find path "/" with
    | Some i => Some i
    | None => Py.find path backslash
    end in
  match tagend with
  | None => (path, None)
  | Some i => (Py.slice_to i path, Some (Py.slice_from (i + 1) path))
  end.

(** [resolve_path], from the split of [path] to the end of the
    [try ... except KeyError]: the [target] and [suffix] it settles on *)
Definition resolve_target (fs : FS) (env : Env) (shortcuts : dict)
  (path : string) : result (string * option string) :=
  let (tag, suffix) := split_tag path in
  match dict_get shortcuts tag with
  | Some target => Ok (target, suffix)
  | None =>
      let home := expanduser_tilde env in
      if Py.startswith path home && negb (path =? home) then
        let tag := "~" in
        let suffix := Some (Py.slice_from (String.length home + 1) path) in
        target <- subscript shortcuts tag ;;
        Ok (target, suffix)
      else
        found <- get_shortcut_prefix tag shortcuts ;;
        match found with
        | Some name =>
            target <- subscript shortcuts name ;;
            Ok (target, suffix)
        | None =>
            if isdir fs path then Ok ("", Some path)
            else
              let suffix := Some path in
              let target := tag in
              let target :=
                if target =? "" then posixpath.sep
                else if negb (isdir fs target) then "."
                else target in
              Ok (target, suffix)
        end
  end.

Definition resolve_path (fs : FS) (env : Env) (file : shortcuts_file)
  (path : string) : result string :=
  let shortcuts := get_shortcut env file in
  if negb (path =? "") then
    ts <- resolve_target fs env shortcuts path ;;
    let (target, suffix) := ts in
    match Py.if_truthy suffix with
    | Some suffix => resolve_full_path fs target suffix
    | None => Ok target
    end
  else Raise (GoError "no path was given").

(* ================================================================== *)
(** * Listing: the groups and the table of [print_shortcuts] *)

Definition newline : ascii := ascii_of_nat 10.
Definition nl : string := String newline EmptyString.

(** [re.search] of one alternative of ["^(a|b|...)$"] against the whole
    of [s]. The alternatives are the default shortcut names, pasted into
    the pattern as they are: a [.] there is the regex wildcard (any
    character but a newline), the other characters of those names stand
    for themselves; [$] also matches just before a final newline. *)
Fixpoint re_alternative (alt s : string) : bool :=
  match alt, s with
  | EmptyString, EmptyString => true
  | EmptyString, String c EmptyString => Ascii.eqb c newline
  | EmptyString, _ => false
  | String p alt', String c s' =>
      (if Ascii.eqb p "." then negb (Ascii.eqb c newline) else Ascii.eqb p c)
      && re_alternative alt' s'
  | String _ _, EmptyString => false
  end.

(** [re.search("^(%s)$" % '|'.join(defaults), shortcut)] *)
Definition re_search_defaults (defaults : list string) (shortcut : string) : bool :=
  existsb (fun alt => re_alternative alt shortcut) defaults.

Definition default_title : string := "Default shortcuts".
Definition custom_title : string := "Custom shortcuts".

(** [grouped]: group title -> member shortcuts, a dict of lists *)
Definition groups : Type := list (string * list string).


(** [grouped[title].append(shortcut)], or [grouped[title] = [shortcut]] *)
Fixpoint groups_add (g : groups) (title shortcut : string) : groups :=
  match g with
  | [] => [(title, [shortcut])]
  | (t, members) :: g' =>
      if t =? title then (t, (members ++ [shortcut])%list) :: g'
      else (t, members) :: groups_add g' title shortcut
  end.

(** the first half of [print_shortcuts]: the sorted groups *)
Definition group_shortcuts (env : Env) (shortcuts : dict) : groups :=
  let defaults := dict_keys (get_default_shortcuts env) in
  let grouped :=
    fold_left
      (fun grouped shortcut =>
         if re_search_defaults defaults shortcut
         then groups_add grouped default_title shortcut
         else groups_add grouped custom_title shortcut)
      (dict_keys shortcuts) [] in
  map (fun tm => (fst tm, Py.sort (snd tm))) grouped.



(* ================================================================== *)
(** * Concrete environments used by the examples *)

(** A filesystem given by the list of its directories (normalised
    paths); every other path is not a directory. *)
Definition parent_of (p : string) : string :=
  let h := fst (posixpath.split p) in
  if h =? "" then "." else h.

Definition fs_of_dirs (dirs files : list string) : FS :=
  let is_dir p := existsb (String.eqb (posixpath.normpath p)) dirs in
  {| isdir := is_dir;
     listdir := fun p =>
       if is_dir p then
         Some (map (fun e => snd (posixpath.split e))
                 (filter (fun e => (parent_of e =? posixpath.normpath p)
                                   && negb (snd (posixpath.split e) =? ""))
                    (dirs ++ files)%list))
       else None |}.

Definition env_bob : Env :=
  {| HOME := Some "/home/bob";
     USERPROFILE := None;
     OLDPWD := None;
     gettempdir := "/tmp";
     pw_dir := None |}.

(** [/D] with the subdirectories [apple], [apricot] and [banana], and
    a plain file beside them *)
Definition fs_fruit : FS :=
  fs_of_dirs ["/"; "/D"; "/D/apple"; "/D/apricot"; "/D/banana"; "/home"; "/home/bob"]
             ["/D/cherry.txt"].


(** neither [HOME] nor [USERPROFILE] is set; the password database
    knows the home directory *)
Definition env_no_home : Env :=
  {| HOME := None;
     USERPROFILE := None;
     OLDPWD := None;
     gettempdir := "/tmp";
     pw_dir := Some "/home/bob" |}.

(** [/D] with three subdirectories that start with [ap] *)
Definition fs_three_ap : FS :=
  fs_of_dirs ["/"; "/D"; "/D/apple"; "/D/apricot"; "/D/apex"] [].



(** the shortcut names that start with [t], in iteration order *)
Definition names_starting_with (t : string) (shortcuts : dict) : list string :=
  filter (fun name => Py.startswith name t) (dict_keys shortcuts).

(** the home-directory test of [resolve_path] *)
Definition under_home (env : Env) (path : string) : bool :=
  Py.startswith path (expanduser_tilde env)
  && negb (path =? expanduser_tilde env).

(** where the walk stands once it has passed the empty first component
    that the [while] loop always leaves in [comps]: [normpath(prefix)]
    with a separator after it *)
Definition walk_root (prefix : string) : string :=
  posixpath.join (posixpath.normpath prefix) "".

(** the [<shortcut>] elements that [set_shortcut] and [get_shortcut]
    work on: those of the file, none when the file is absent *)
Definition file_entries (file : shortcuts_file) : xml_doc :=
  match file with
  | Some doc => doc
  | None => []
  end.

(** no character of [s] is one that [fnmatch] reads as a wildcard *)
Fixpoint glob_free (s : string) : bool :=
  match s with
  | EmptyString => true
  | String c s' =>
      negb (Ascii.eqb c "*") && negb (Ascii.eqb c "?") && negb (Ascii.eqb c "[")
      && glob_free s'
  end.

(* ------------------------------------------------------------------ *)
(** ** The shell script, and the actions of [main]

    [main] is modelled on a POSIX platform, from the point where
    [GO_SHELL_SCRIPT] is known to be set and [getopt] has returned: the
    loop over [optlist] ([select_action]) and the branches of the
    actions add, delete, set, cd, print and list. [argv] stands for the
    text that ["%s" % argv] gives. *)

Definition dquote : string := String (ascii_of_nat 34) EmptyString.

(** [generate_shell_script(script_name, path)] on POSIX: the text
    written to the script file; when [resolve_path] raises, the file is
    not opened at all *)
Definition generate_shell_script (fs : FS) (env : Env) (file : shortcuts_file)
  (path : option string) : result string :=
  target <- match path with
            | None => Ok None
            | Some p => t <- resolve_path fs env file p ;; Ok (Some t)
            end ;;
  Ok ("#!/bin/sh" ++ nl ++
      match Py.if_truthy target with
      | Some t => "cd " ++ dquote ++ t ++ dquote ++ nl
      | None => ""
      end).

(** what [generate_shell_script(shell_script)] writes at the start of
    [main] *)
Definition noop_script : string := "#!/bin/sh" ++ nl.

(** [error(msg)]: the text written to stderr *)
Definition error (msg : string) : string := "go: error: " ++ msg ++ nl.

(** [get_home_dir()]: the value returned and the text written to stderr *)
Definition get_home_dir (env : Env) : string * string :=
  match HOME env with
  | Some h => (h, "")
  | None =>
      match USERPROFILE env with
      | Some h => (h, "")
      | None => ("", error "Cannot find home directory.")
      end
  end.

(** the options that end [main] at once *)
Inductive early : Type := Help | Version.

Definition opt_in (opt a b : string) : bool := (opt =? a) || (opt =? b).

(** [for opt, _ in optlist]: the action chosen, or the early return *)
Fixpoint select_action (action : string) (optlist : list string)
  : early + string :=
  match optlist with
  | [] => inr action
  | opt :: rest =>
      if opt_in opt "-h" "--help" then inl Help
      else if opt_in opt "-V" "--version" then inl Version
      else if opt_in opt "-c" "--cd" then select_action "cd" rest
      else if opt_in opt "-p" "--print" then select_action "print" rest
      else if opt_in opt "-s" "--set" then select_action "set" rest
      else if opt_in opt "-a" "--add-current" then select_action "add" rest
      else if opt_in opt "-d" "--delete" then select_action "delete" rest
      else if opt_in opt "-l" "--list" then select_action "list" rest
      else if opt_in opt "-o" "--open" then select_action "open" rest
      else select_action action rest
  end.

(** What one run of [main] leaves behind: the value returned (or the
    exception that escapes), the text on stdout and stderr, the shortcuts
    file and the shell script. *)
Record Run : Type := mkRun {
  run_code : result nat;
  run_stdout : string;
  run_stderr : string;
  run_file : shortcuts_file;
  run_script : string
}.

Definition incorrect_arguments (argv : string) : string :=
  "Incorrect number of arguments. argv: " ++ argv.

(** [try: set_shortcut(name, value) except GoError as ex: ...], shared
    by the actions add, delete and set *)
Definition try_set_shortcut (name : string) (value : option string)
  (file : shortcuts_file) : Run :=
  match set_shortcut name value file with
  | (Ok _, file') => mkRun (Ok 0) "" "" file' noop_script
  | (Raise (GoError msg), file') => mkRun (Ok 1) "" (error msg) file' noop_script
  | (Raise e, file') => mkRun (Raise e) "" "" file' noop_script
  end.



(** [action == "set"] *)
Definition main_set (file : shortcuts_file)
  (args : list string) (argv : string) : Run :=
  match args with
  | [name; value] => try_set_shortcut name (Some value) file
  | _ => mkRun (Ok 1) "" (error (incorrect_arguments argv)) file noop_script
  end.

(** [str(ex)] for a [KeyError]: the key between single quotes. That is
    [repr(key)] for the key [~], the only one with which a [KeyError]
    leaves [resolve_path]. *)
Definition str_KeyError (key : string) : string := "'" ++ key ++ "'".

(** [action == "cd"] *)
Definition main_cd (fs : FS) (env : Env) (file : shortcuts_file)
  (args : list string) (argv : string) : Run :=
  match args with
  | _ :: _ :: _ =>
      mkRun (Ok 1) "" (error (incorrect_arguments argv)) file noop_script
  | _ =>
      let (path, err) :=
        match args with
        | [p] => (p, "")
        | _ => get_home_dir env
        end in
      match generate_shell_script fs env file (Some path) with
      | Ok script => mkRun (Ok 0) "" err file script
      | Raise (KeyError key) =>
          mkRun (Ok 1) ""
            (err ++ error ("Unrecognized shortcut: '" ++ str_KeyError key ++ "'"))
            file noop_script
      | Raise (GoError msg) => mkRun (Ok 1) "" (err ++ error msg) file noop_script
      | Raise e => mkRun (Raise e) "" err file noop_script
      end
  end.






(** [_find_on_path(prog)] on POSIX: [isfile] is [os.path.isfile] and
    [PATH] the environment variable; the value returned is the int 1 or 0
    ([inl]) or the full path ([inr]), beside the text written to stderr *)
Fixpoint find_in_folders (isfile : string -> bool) (prog : string)
  (folders : list string) : nat + string :=
  match folders with
  | [] => inl 0
  | folder :: rest =>
      let fullpath := posixpath.join folder prog in
      if isfile fullpath then inr fullpath
      else find_in_folders isfile prog rest
  end.

Definition _find_on_path (isfile : string -> bool) (PATH : option string)
  (prog : string) : (nat + string) * string :=
  match PATH with
  | None => (inl 1, error "Could not determine current PATH.")
  | Some path => (find_in_folders isfile prog (Py.split path ":"), "")
  end.

(** the options at which the loop over [optlist] returns from [main] *)
Definition ends_main (opt : string) : Prop :=
  In opt ["-h"; "--help"; "-V"; "--version"].

(** [a <= b] on str, as a relation *)
Definition str_le_prop (a b : string) : Prop := Py.str_le a b = true.

(* ================================================================== *)
(** * Facts about the str and path helpers *)

Lemma slice_to_from (i : nat) (s : string) :
  s = Py.slice_to i s ++ Py.slice_from i s.
Proof.
  revert s; induction i as [|i IH]; intros [|c s]; simpl; try reflexivity.
  now rewrite <- IH.
Qed.

Lemma rstrip_is_prefix (s : string) (c : ascii) :
  exists rest, s = Py.rstrip s c ++ rest.
Proof.
  induction s as [|a s [rest IH]]; simpl.
  - now exists "".
  - destruct (Py.rstrip s c) as [|b r] eqn:E.
    + destruct (Ascii.eqb a c).
      * now exists (String a s).
      * now exists s.
    + exists rest. simpl in *. now rewrite <- IH.
Qed.

Lemma append_length (a b : string) :
  String.length (a ++ b) = String.length a + String.length b.
Proof. induction a; simpl; auto. Qed.

Lemma append_empty_r (a : string) : a ++ "" = a.
Proof. induction a; simpl; congruence. Qed.

Lemma prefix_shorter (a b rest : string) :
  b = a ++ rest -> a <> b -> String.length a < String.length b.
Proof.
  intros -> Hne. rewrite append_length.
  destruct rest; [ now rewrite append_empty_r in Hne | simpl; lia ].
Qed.

Lemma split_head_is_prefix (p : string) :
  exists rest, p = fst (posixpath.split p) ++ rest.
Proof.
  unfold posixpath.split; simpl.
  set (i := Py.rfind_succ p "/").
  pose proof (slice_to_from i p) as Hp.
  destruct (negb (Py.slice_to i p =? "")
            && negb (Py.slice_to i p =? Py.repeat_char "/" (String.length (Py.slice_to i p)))).
  - destruct (rstrip_is_prefix (Py.slice_to i p) "/") as [r Hr].
    exists (r ++ Py.slice_from i p).
    rewrite Hp at 1. rewrite Hr at 1.
    clear. induction (Py.rstrip (Py.slice_to i p) "/"); simpl; congruence.
  - now exists (Py.slice_from i p).
Qed.

Lemma split_head_shorter (p : string) :
  fst (posixpath.split p) <> p ->
  String.length (fst (posixpath.split p)) < String.length p.
Proof.
  intros Hne. destruct (split_head_is_prefix p) as [rest Hrest].
  eapply prefix_shorter; eauto.
Qed.

(** The [while] loop of [resolve_full_path] ends: [len(head) + 1]
    turns are enough. *)
Lemma split_loop_enough_fuel (fuel : nat) :
  forall head last_head comps,
    String.length head < fuel ->
    exists r, split_loop fuel head last_head comps = Some r.
Proof.
  induction fuel as [|fuel IH]; intros head last_head comps Hlen; [lia|].
  cbn [split_loop]. destruct (head =? last_head); [eauto|].
  destruct (posixpath.split head) as [head' tail] eqn:Hs.
  destruct (String.eqb_spec head' head) as [->|Hne].
  - destruct fuel; cbn [split_loop]; rewrite String.eqb_refl; eauto.
  - apply IH.
    pose proof (split_head_shorter head) as Hlt.
    rewrite Hs in Hlt; simpl in Hlt. specialize (Hlt Hne). lia.
Qed.

Lemma split_loop_terminates (suffix : string) :
  exists comps,
    split_loop (S (String.length suffix)) suffix "" [] = Some comps.
Proof. apply split_loop_enough_fuel; lia. Qed.

Lemma split_loop_extends (fuel : nat) :
  forall head last_head comps r,
    split_loop fuel head last_head comps = Some r ->
    exists more, r = (comps ++ more)%list.
Proof.
  induction fuel as [|fuel IH]; intros head last_head comps r; cbn [split_loop].
  - destruct (head =? last_head); [|discriminate].
    intros [= <-]. exists []. now rewrite app_nil_r.
  - destruct (head =? last_head).
    + intros [= <-]. exists []. now rewrite app_nil_r.
    + destruct (posixpath.split head) as [head' tail].
      intros H. apply IH in H as [more ->].
      exists (tail :: more). now rewrite <- app_assoc.
Qed.

Lemma path_components_nonempty (suffix : string) :
  suffix <> "" -> path_components suffix <> [].
Proof.
  intros Hne. unfold path_components.
  destruct (split_loop_terminates suffix) as [comps Hc]. rewrite Hc.
  cbn [split_loop] in Hc.
  destruct (String.eqb_spec suffix "") as [->|_]; [congruence|].
  destruct (posixpath.split suffix) as [head' tail].
  apply split_loop_extends in Hc as [more ->].
  intros H. apply (f_equal (@List.length string)) in H.
  rewrite length_rev, length_app in H. simpl in H. lia.
Qed.

(* ================================================================== *)
(** * The prefix resolver: exact match first, then unique prefix *)

Section PrefixLoop.

Variable path : string.

Lemma prefix_loop_exact (names ret : list string) :
  In path names -> prefix_loop path names ret = inl path.
Proof.
  revert ret; induction names as [|name names IH]; intros ret Hin; simpl in *.
  - contradiction.
  - destruct (String.eqb_spec name path) as [->|Hne]; [reflexivity|].
    destruct Hin as [?|Hin]; [congruence|].
    destruct (Py.startswith name path); now apply IH.
Qed.

Lemma prefix_loop_no_exact (names ret : list string) :
  ~ In path names ->
  prefix_loop path names ret =
  inr (ret ++ filter (fun name => Py.startswith name path) names)%list.
Proof.
  revert ret; induction names as [|name names IH]; intros ret Hnin; simpl in *.
  - now rewrite app_nil_r.
  - destruct (String.eqb_spec name path) as [->|Hne]; [tauto|].
    destruct (Py.startswith name path).
    + rewrite IH by tauto. now rewrite <- app_assoc.
    + apply IH; tauto.
Qed.

End PrefixLoop.

Lemma get_shortcut_prefix_no_exact (t : string) (shortcuts : dict) :
  t <> "" ->
  ~ In t (dict_keys shortcuts) ->
  get_shortcut_prefix t shortcuts =
  match names_starting_with t shortcuts with
  | [] => Ok None
  | [r] => Ok (Some r)
  | ret => Raise (GoError (ambiguous_shortcut_msg t ret))
  end.
Proof.
  intros Hne Hnin. unfold get_shortcut_prefix.
  destruct (String.eqb_spec t "") as [?|_]; [contradiction|].
  rewrite prefix_loop_no_exact by assumption. simpl.
  fold (names_starting_with t shortcuts).
  now destruct (names_starting_with t shortcuts) as [|a [|b l]].
Qed.

Lemma get_shortcut_prefix_ambiguous (t : string) (shortcuts : dict) :
  t <> "" ->
  ~ In t (dict_keys shortcuts) ->
  2 <= List.length (names_starting_with t shortcuts) ->
  get_shortcut_prefix t shortcuts =
  Raise (GoError (ambiguous_shortcut_msg t (names_starting_with t shortcuts))).
Proof.
  intros Hne Hnin Hlen. rewrite get_shortcut_prefix_no_exact by assumption.
  destruct (names_starting_with t shortcuts) as [|a [|b l]]; simpl in Hlen;
    try lia; reflexivity.
Qed.

(** C2. For a non-empty token [t] and candidates that contain [t]
    itself, [get_shortcut_prefix] returns [t], whatever other candidates
    start with [t]; and whenever it reports ambiguity, [t] is none of the
    candidates. *)
Theorem exact_match_wins (t : string) (shortcuts : dict) :
  t <> "" ->
  (In t (dict_keys shortcuts) ->
   get_shortcut_prefix t shortcuts = Ok (Some t))
  /\ (forall e, get_shortcut_prefix t shortcuts = Raise e ->
                ~ In t (dict_keys shortcuts)).
Proof.
  intros Hne.
  assert (Hexact : In t (dict_keys shortcuts) ->
                   get_shortcut_prefix t shortcuts = Ok (Some t)).
  { intros Hin. unfold get_shortcut_prefix.
    destruct (String.eqb_spec t "") as [?|_]; [contradiction|].
    now rewrite prefix_loop_exact. }
  split; [exact Hexact|].
  intros e Hraise Hin. rewrite (Hexact Hin) in Hraise. discriminate.
Qed.

Lemma exact_match_wins_witness :
  "k" <> ""
  /\ In "k" (dict_keys [("ko", "/apps/Komodo-devel"); ("k", "/srv/k"); ("kit", "/kit")])
  /\ get_shortcut_prefix "k"
       [("ko", "/apps/Komodo-devel"); ("k", "/srv/k"); ("kit", "/kit")]
     = Ok (Some "k").
Proof.
  assert (Hne : "k" <> "") by discriminate.
  assert (Hin : In "k" (dict_keys [("ko", "/apps/Komodo-devel");
                                   ("k", "/srv/k"); ("kit", "/kit")]))
    by (simpl; auto).
  refine (conj Hne (conj Hin _)).
  exact (proj1 (exact_match_wins "k" _ Hne) Hin).
Defined.

(* ================================================================== *)
(** * dict and the shortcut store *)

Lemma dict_get_set_same (d : dict) (k v : string) :
  dict_get (dict_set d k v) k = Some v.
Proof.
  induction d as [|[k' v'] d IH]; simpl.
  - now rewrite String.eqb_refl.
  - destruct (String.eqb_spec k' k) as [->|Hne]; simpl.
    + now rewrite String.eqb_refl.
    + destruct (String.eqb_spec k' k); [contradiction|assumption].
Qed.

Lemma dict_get_set_other (d : dict) (k k' v : string) :
  k <> k' -> dict_get (dict_set d k v) k' = dict_get d k'.
Proof.
  intros Hne. induction d as [|[k0 v0] d IH]; simpl.
  - destruct (String.eqb_spec k k'); [contradiction|reflexivity].
  - destruct (String.eqb_spec k0 k) as [->|Hne0]; simpl.
    + destruct (String.eqb_spec k k'); [contradiction|reflexivity].
    + now rewrite IH.
Qed.


Lemma dict_set_keys (d : dict) (k v : string) :
  dict_keys (dict_set d k v) =
  if existsb (String.eqb k) (dict_keys d) then dict_keys d
  else (dict_keys d ++ [k])%list.
Proof.
  induction d as [|[k' v'] d IH]; simpl; [reflexivity|].
  rewrite (String.eqb_sym k k').
  destruct (String.eqb_spec k' k) as [->|Hne]; simpl; [reflexivity|].
  unfold dict_keys in *. rewrite IH.
  now destruct (existsb (String.eqb k) (map fst d)).
Qed.



Lemma dict_get_None (d : dict) (k : string) :
  ~ In k (dict_keys d) -> dict_get d k = None.
Proof.
  induction d as [|[k' v'] d IH]; simpl; [reflexivity|].
  intros Hnin. destruct (String.eqb_spec k' k); [tauto|]. apply IH; tauto.
Qed.

Lemma dict_get_Some_In (d : dict) (k v : string) :
  dict_get d k = Some v -> In k (dict_keys d).
Proof.
  induction d as [|[k' v'] d IH]; simpl; [discriminate|].
  destruct (String.eqb_spec k' k); [now left|]. intros H; right; now apply IH.
Qed.













(* ================================================================== *)
(** * The sub-path walk *)

Lemma append_assoc (a b c : string) : (a ++ b) ++ c = a ++ b ++ c.
Proof. induction a; simpl; congruence. Qed.

Lemma endswith_append_sep (a : string) : Py.endswith (a ++ "/") "/" = true.
Proof.
  induction a as [|c a IH]; [reflexivity|].
  simpl. destruct (a ++ "/") eqn:E; [destruct a; discriminate|exact IH].
Qed.

(** Joining a name below [p/] is joining it below [p]. *)
Lemma join_dir_name (p name : string) :
  Py.startswith name "/" = false ->
  posixpath.join (posixpath.join p "") name = posixpath.join p name.
Proof.
  intros Hrel. unfold posixpath.join, posixpath.sep. rewrite Hrel.
  change (Py.startswith "" "/") with false. cbv iota.
  destruct ((p =? "") || Py.endswith p "/") eqn:E.
  - now rewrite append_empty_r, E.
  - rewrite append_empty_r.
    replace ((p ++ "/" =? "") || Py.endswith (p ++ "/") "/") with true.
    + now rewrite append_assoc.
    + now rewrite endswith_append_sep, orb_true_r.
Qed.

Section Listing.

Variables (fs : FS) (path comp : string).

Lemma find_dir_none (found : string) (entries : list string) :
  filter (candidate fs path comp) entries = [] ->
  find_dir fs path comp found entries = Ok found.
Proof.
  induction entries as [|e entries IH]; simpl; [reflexivity|].
  destruct (candidate fs path comp e); [discriminate|exact IH].
Qed.

Lemma find_dir_found (found : string) (entries : list string) :
  found <> "" ->
  find_dir fs path comp found entries =
  match filter (candidate fs path comp) entries with
  | [] => Ok found
  | directory :: _ => Raise (GoError (ambiguous_path_msg path found directory))
  end.
Proof.
  intros Hne. induction entries as [|e entries IH]; simpl; [reflexivity|].
  destruct (candidate fs path comp e); [|exact IH].
  destruct (String.eqb_spec found ""); [contradiction|reflexivity].
Qed.

Lemma find_dir_first (entries : list string) (d1 : string) (rest : list string) :
  filter (candidate fs path comp) entries = d1 :: rest ->
  d1 <> "" ->
  find_dir fs path comp "" entries =
  match rest with
  | [] => Ok d1
  | d2 :: _ => Raise (GoError (ambiguous_path_msg path d1 d2))
  end.
Proof.
  intros Hf Hne. induction entries as [|e entries IH]; simpl in *; [discriminate|].
  destruct (candidate fs path comp e); [|now apply IH].
  injection Hf as -> <-. now apply find_dir_found.
Qed.

Lemma find_dir_ok (found f : string) (entries : list string) :
  find_dir fs path comp found entries = Ok f ->
  f = found \/ candidate fs path comp f = true.
Proof.
  revert found; induction entries as [|e entries IH]; intros found; simpl.
  - intros [= ->]. now left.
  - destruct (candidate fs path comp e) eqn:Hc; [|apply IH].
    destruct (found =? ""); [|discriminate].
    intros H. apply IH in H as [->|H]; auto.
Qed.

Variables (prefix : string) (entries : list string).
Hypothesis not_a_directory : isdir fs (posixpath.join path comp) = false.
Hypothesis listing : listdir fs path = Some entries.

Lemma resolve_comp_no_candidate :
  filter (candidate fs path comp) entries = [] ->
  resolve_comp fs prefix path comp =
  Raise (GoError (not_found_msg prefix comp path)).
Proof.
  intros Hf. unfold resolve_comp. rewrite not_a_directory, listing.
  cbn [bind]. now rewrite (find_dir_none _ _ Hf).
Qed.

Lemma resolve_comp_one_candidate (d : string) :
  filter (candidate fs path comp) entries = [d] ->
  d <> "" ->
  resolve_comp fs prefix path comp = Ok (posixpath.join path d).
Proof.
  intros Hf Hne. unfold resolve_comp. rewrite not_a_directory, listing.
  cbn [bind]. rewrite (find_dir_first _ _ _ Hf Hne). cbn [bind].
  destruct (String.eqb_spec d ""); [contradiction|reflexivity].
Qed.

Lemma resolve_comp_two_candidates (d1 d2 : string) (more : list string) :
  filter (candidate fs path comp) entries = d1 :: d2 :: more ->
  d1 <> "" ->
  resolve_comp fs prefix path comp =
  Raise (GoError (ambiguous_path_msg path d1 d2)).
Proof.
  intros Hf Hne. unfold resolve_comp. rewrite not_a_directory, listing.
  cbn [bind]. now rewrite (find_dir_first _ _ _ Hf Hne).
Qed.

End Listing.

(** C4, amended. When the component [c] is not itself a directory under
    [path] and two or more entries of [path] match [c + "*"] and are
    directories, the walk fails with the [GoError] "Abmiguous path under
    path: 'd1', 'd2'", which names the directory searched and the first
    two matching entries in listing order, and no further one. *)
Theorem ambiguous_component (fs : FS) (prefix path c : string)
  (comps entries : list string) (d1 d2 : string) (more : list string) :
  isdir fs (posixpath.join path c) = false ->
  listdir fs path = Some entries ->
  filter (candidate fs path c) entries = d1 :: d2 :: more ->
  d1 <> "" ->
  walk_comps fs prefix path (c :: comps) =
  Raise (GoError (ambiguous_path_msg path d1 d2)).
Proof.
  intros Hnd Hl Hf Hne. cbn [walk_comps].
  now rewrite (resolve_comp_two_candidates fs path c prefix entries Hnd Hl d1 d2 more Hf Hne).
Qed.

Lemma ambiguous_component_witness :
  walk_comps fs_three_ap "/D" "/D/" ["ap"] =
  Raise (GoError "Abmiguous path under /D/: 'apple', 'apricot'").
Proof.
  apply (ambiguous_component fs_three_ap "/D" "/D/" "ap" []
           ["apple"; "apricot"; "apex"] "apple" "apricot" ["apex"]).
  - reflexivity.
  - reflexivity.
  - reflexivity.
  - discriminate.
Defined.

(** C4 as stated fails: with three subdirectories that match, the
    message names two of them and leaves the third out; and when the
    component is itself a directory, the walk descends into it although
    other entries match as well. *)
Lemma ambiguous_component_counterexample :
  filter (candidate fs_three_ap "/D/" "ap") ["apple"; "apricot"; "apex"]
  = ["apple"; "apricot"; "apex"]
  /\ listdir fs_three_ap "/D/" = Some ["apple"; "apricot"; "apex"]
  /\ resolve_full_path fs_three_ap "/D" "ap"
     = Raise (GoError "Abmiguous path under /D/: 'apple', 'apricot'")
  /\ Py.contains "Abmiguous path under /D/: 'apple', 'apricot'" "apex" = false.
Proof. repeat split; vm_compute; reflexivity. Qed.

(** Every successful turn of the walk ends in a directory. *)
Lemma resolve_comp_isdir (fs : FS) (prefix path comp p : string) :
  resolve_comp fs prefix path comp = Ok p -> isdir fs p = true.
Proof.
  unfold resolve_comp.
  destruct (isdir fs (posixpath.join path comp)) eqn:Hd.
  - now intros [= <-].
  - destruct (listdir fs path) as [entries|]; cbn [bind]; [|discriminate].
    destruct (find_dir fs path comp "" entries) as [found|e] eqn:Hf;
      cbn [bind]; [|discriminate].
    destruct (String.eqb_spec found "") as [->|Hne]; [discriminate|].
    intros [= <-].
    apply find_dir_ok in Hf as [->|Hc]; [contradiction|].
    unfold candidate in Hc. now apply andb_true_iff in Hc.
Qed.

Lemma walk_comps_isdir (fs : FS) (prefix : string) (comps : list string) :
  forall path p,
    comps <> [] ->
    walk_comps fs prefix path comps = Ok p -> isdir fs p = true.
Proof.
  induction comps as [|comp comps IH]; intros path p Hne; [contradiction|].
  cbn [walk_comps].
  destruct (resolve_comp fs prefix path comp) as [path'|e] eqn:Hr;
    cbn [bind]; [|discriminate].
  destruct comps as [|comp' comps].
  - cbn [walk_comps]. intros [= <-]. eapply resolve_comp_isdir; eauto.
  - apply IH. discriminate.
Qed.

Lemma resolve_full_path_isdir (fs : FS) (prefix suffix p : string) :
  suffix <> "" ->
  resolve_full_path fs prefix suffix = Ok p -> isdir fs p = true.
Proof.
  intros Hne. unfold resolve_full_path.
  destruct (isdir fs (posixpath.join prefix suffix)) eqn:Hd.
  - now intros [= <-].
  - apply walk_comps_isdir. now apply path_components_nonempty.
Qed.

Lemma filter_Permutation {A : Type} (f : A -> bool) (l l' : list A) :
  Permutation l l' -> Permutation (filter f l) (filter f l').
Proof.
  induction 1 as [|x l l' _ IH|x y l|l l' l'' _ IH1 _ IH2]; simpl.
  - constructor.
  - destruct (f x); auto.
  - destruct (f x), (f y); auto. apply perm_swap.
  - eapply perm_trans; eauto.
Qed.

Lemma filter_candidate (fs : FS) (path comp : string) (entries : list string) :
  filter (candidate fs path comp) entries =
  filter (fun d => fnmatch.fnmatch d (comp ++ "*"))
    (filter (fun d => isdir fs (posixpath.join path d)) entries).
Proof.
  induction entries as [|e entries IH]; simpl; [reflexivity|].
  unfold candidate at 1.
  destruct (isdir fs (posixpath.join path e)); simpl;
    destruct (fnmatch.fnmatch e (comp ++ "*")); simpl; now rewrite IH.
Qed.

(** ** A directory with the subdirectories apple, apricot and banana *)

Section Fruit.

Variables (fs : FS) (D : string) (entries : list string).

(** [D] is a directory, [entries] is its listing, and the entries that
    are directories are apple, apricot and banana, in some order. *)
Hypothesis D_is_directory : isdir fs (walk_root D) = true.
Hypothesis D_listing : listdir fs (walk_root D) = Some entries.
Hypothesis D_subdirectories :
  Permutation
    (filter (fun d => isdir fs (posixpath.join (walk_root D) d)) entries)
    ["apple"; "apricot"; "banana"].
Hypothesis D_nothing_else :
  forall c, In c ["ap"; "b"; "ban"; "cherry"] ->
            isdir fs (posixpath.join D c) = false
            /\ isdir fs (posixpath.join (walk_root D) c) = false.

Lemma fruit_candidates (c : string) :
  Permutation (filter (candidate fs (walk_root D) c) entries)
    (filter (fun d => fnmatch.fnmatch d (c ++ "*"))
       ["apple"; "apricot"; "banana"]).
Proof. rewrite filter_candidate. now apply filter_Permutation. Qed.

Lemma fruit_walk (c : string) :
  In c ["ap"; "b"; "ban"; "cherry"] ->
  resolve_full_path fs D c = resolve_comp fs D (walk_root D) c.
Proof.
  intros Hin. unfold resolve_full_path.
  rewrite (proj1 (D_nothing_else c Hin)).
  assert (Hc : path_components c = [""; c]).
  { simpl in Hin. repeat destruct Hin as [<-|Hin]; try reflexivity.
    contradiction. }
  rewrite Hc. cbn [walk_comps].
  assert (H0 : resolve_comp fs D (posixpath.normpath D) "" = Ok (walk_root D)).
  { unfold resolve_comp.
    change (posixpath.join (posixpath.normpath D) "") with (walk_root D).
    now rewrite D_is_directory. }
  rewrite H0. cbn [bind].
  now destruct (resolve_comp fs D (walk_root D) c).
Qed.

Lemma fruit_unique (c : string) :
  In c ["b"; "ban"] ->
  resolve_full_path fs D c
  = Ok (posixpath.join (posixpath.normpath D) "banana").
Proof.
  intros Hin.
  assert (Hin' : In c ["ap"; "b"; "ban"; "cherry"])
    by (simpl in *; tauto).
  rewrite (fruit_walk c Hin').
  assert (Hf : filter (candidate fs (walk_root D) c) entries = ["banana"]).
  { apply Permutation_length_1_inv, Permutation_sym.
    pose proof (fruit_candidates c) as Hp.
    simpl in Hin. destruct Hin as [<-|[<-|[]]]; exact Hp. }
  rewrite (resolve_comp_one_candidate fs (walk_root D) c D entries
             (proj2 (D_nothing_else c Hin')) D_listing "banana" Hf)
    by discriminate.
  unfold walk_root. now rewrite join_dir_name.
Qed.

Lemma fruit_ambiguous :
  exists found directory,
    Permutation [found; directory] ["apple"; "apricot"]
    /\ resolve_full_path fs D "ap"
       = Raise (GoError (ambiguous_path_msg (walk_root D) found directory)).
Proof.
  assert (Hin : In "ap" ["ap"; "b"; "ban"; "cherry"]) by (simpl; tauto).
  rewrite (fruit_walk "ap" Hin).
  pose proof (fruit_candidates "ap") as Hp.
  apply Permutation_sym, Permutation_length_2_inv in Hp.
  destruct Hp as [Hf|Hf].
  - exists "apple", "apricot". split; [apply Permutation_refl|].
    apply (resolve_comp_two_candidates fs (walk_root D) "ap" D entries
             (proj2 (D_nothing_else "ap" Hin)) D_listing _ _ [] Hf).
    discriminate.
  - exists "apricot", "apple". split; [apply perm_swap|].
    apply (resolve_comp_two_candidates fs (walk_root D) "ap" D entries
             (proj2 (D_nothing_else "ap" Hin)) D_listing _ _ [] Hf).
    discriminate.
Qed.

Lemma fruit_not_found :
  resolve_full_path fs D "cherry"
  = Raise (GoError (not_found_msg D "cherry" (walk_root D))).
Proof.
  assert (Hin : In "cherry" ["ap"; "b"; "ban"; "cherry"]) by (simpl; tauto).
  rewrite (fruit_walk "cherry" Hin).
  apply (resolve_comp_no_candidate fs (walk_root D) "cherry" D entries
           (proj2 (D_nothing_else "cherry" Hin)) D_listing).
  apply Permutation_nil, Permutation_sym. exact (fruit_candidates "cherry").
Qed.

(** C1. In a directory [D] whose subdirectories are exactly apple,
    apricot and banana, the walk [resolve_full_path(D, "ap")] fails with
    the ambiguous-path [GoError] that names apple and apricot,
    [resolve_full_path(D, "b")] and [resolve_full_path(D, "ban")] return
    D/banana, and [resolve_full_path(D, "cherry")] fails with the
    not-found [GoError]. *)
Theorem walk_apple_apricot_banana :
  (exists found directory,
      Permutation [found; directory] ["apple"; "apricot"]
      /\ resolve_full_path fs D "ap"
         = Raise (GoError (ambiguous_path_msg (walk_root D) found directory)))
  /\ resolve_full_path fs D "b"
     = Ok (posixpath.join (posixpath.normpath D) "banana")
  /\ resolve_full_path fs D "ban"
     = Ok (posixpath.join (posixpath.normpath D) "banana")
  /\ resolve_full_path fs D "cherry"
     = Raise (GoError (not_found_msg D "cherry" (walk_root D))).
Proof.
  split; [exact fruit_ambiguous|].
  split; [apply fruit_unique; simpl; tauto|].
  split; [apply fruit_unique; simpl; tauto|].
  exact fruit_not_found.
Qed.

End Fruit.

Lemma walk_apple_apricot_banana_witness :
  resolve_full_path fs_fruit "/D" "b" = Ok "/D/banana"
  /\ resolve_full_path fs_fruit "/D" "ban" = Ok "/D/banana"
  /\ resolve_full_path fs_fruit "/D" "cherry"
     = Raise (GoError "Unable to resolve 'cherry' under directory '/D/'").
Proof.
  assert (Hdir : isdir fs_fruit (walk_root "/D") = true) by reflexivity.
  assert (Hlist : listdir fs_fruit (walk_root "/D")
                  = Some ["apple"; "apricot"; "banana"; "cherry.txt"])
    by reflexivity.
  assert (Hsub : Permutation
            (filter (fun d => isdir fs_fruit (posixpath.join (walk_root "/D") d))
               ["apple"; "apricot"; "banana"; "cherry.txt"])
            ["apple"; "apricot"; "banana"])
    by apply Permutation_refl.
  assert (Hno : forall c, In c ["ap"; "b"; "ban"; "cherry"] ->
            isdir fs_fruit (posixpath.join "/D" c) = false
            /\ isdir fs_fruit (posixpath.join (walk_root "/D") c) = false).
  { intros c Hin. simpl in Hin.
    repeat destruct Hin as [<-|Hin]; try (split; reflexivity). contradiction. }
  exact (proj2 (walk_apple_apricot_banana fs_fruit "/D" _ Hdir Hlist Hsub Hno)).
Defined.

(* ================================================================== *)
(** * The path resolution engine *)










(** C5, amended. When [resolve_path] succeeds after walking a
    non-empty sub-path, the path it returns is an existing directory;
    when the sub-path is absent or empty it returns the target it settled
    on (for a shortcut: the stored target) as it is, with no check that
    the directory exists. *)
Theorem resolved_path_exists (fs : FS) (env : Env) (file : shortcuts_file)
  (token p target : string) (suffix : option string) :
  resolve_path fs env file token = Ok p ->
  resolve_target fs env (get_shortcut env file) token = Ok (target, suffix) ->
  if Py.truthy suffix then isdir fs p = true else p = target.
Proof.
  unfold resolve_path. intros Hp Ht.
  destruct (negb (token =? "")); [|discriminate].
  rewrite Ht in Hp. cbn [bind] in Hp. unfold Py.if_truthy in Hp.
  destruct (Py.truthy suffix) eqn:Hs.
  - destruct suffix as [s|]; [|discriminate].
    apply resolve_full_path_isdir in Hp; [assumption|].
    intros ->. discriminate.
  - now injection Hp.
Qed.

Lemma resolved_path_exists_witness :
  isdir fs_fruit "/D/banana" = true.
Proof.
  apply (resolved_path_exists fs_fruit env_bob (Some [("d", "/D")])
           "d/b" "/D/banana" "/D" (Some "b")); reflexivity.
Defined.

(** C5 as stated fails: the bare name of a shortcut whose stored target
    is not a directory resolves to that target. *)
Lemma resolved_path_exists_counterexample :
  dict_get (get_shortcut env_bob (Some [("dx", "/gone")])) "dx" = Some "/gone"
  /\ resolve_path fs_fruit env_bob (Some [("dx", "/gone")]) "dx" = Ok "/gone"
  /\ isdir fs_fruit "/gone" = false.
Proof. repeat split; reflexivity. Qed.

(** C7, amended. For every non-empty token [t] without a path
    separator, to which the home-directory test does not apply, that is
    not a shortcut name and with which two or more shortcut names start,
    [resolve_path(t)] fails with the [GoError] "ambiguous shortcut 't' -
    ...", which lists exactly the shortcut names that start with [t], in
    the iteration order of the store. *)
Theorem ambiguous_prefix_reported (fs : FS) (env : Env) (file : shortcuts_file)
  (t : string) :
  let shortcuts := get_shortcut env file in
  t <> "" ->
  Py.find t "/" = None ->
  Py.find t backslash = None ->
  under_home env t = false ->
  ~ In t (dict_keys shortcuts) ->
  2 <= List.length (names_starting_with t shortcuts) ->
  get_shortcut_prefix t shortcuts
  = Raise (GoError (ambiguous_shortcut_msg t (names_starting_with t shortcuts)))
  /\ resolve_path fs env file t
     = Raise (GoError (ambiguous_shortcut_msg t (names_starting_with t shortcuts))).
Proof.
  intros shortcuts Hne Hslash Hback Hhome Hnin Hlen.
  pose proof (get_shortcut_prefix_ambiguous t shortcuts Hne Hnin Hlen) as Hamb.
  split; [exact Hamb|].
  unfold resolve_path. fold shortcuts.
  destruct (String.eqb_spec t ""); [contradiction|]. cbn [negb].
  unfold resolve_target, split_tag. rewrite Hslash, Hback.
  rewrite (dict_get_None shortcuts t Hnin).
  unfold under_home in Hhome. rewrite Hhome, Hamb. reflexivity.
Qed.

Lemma ambiguous_prefix_reported_witness :
  resolve_path fs_fruit env_bob
    (Some [("ko", "/apps/Komodo-devel"); ("work", "/w"); ("kit", "/kit")]) "k"
  = Raise (GoError "ambiguous shortcut 'k' - ko, kit").
Proof.
  apply (ambiguous_prefix_reported fs_fruit env_bob
           (Some [("ko", "/apps/Komodo-devel"); ("work", "/w"); ("kit", "/kit")])
           "k").
  - discriminate.
  - reflexivity.
  - reflexivity.
  - reflexivity.
  - vm_compute. intuition discriminate.
  - vm_compute. lia.
Defined.

(** C7 as stated fails for a token with a separator: [a/b] is a prefix
    of the two shortcut names [a/b1] and [a/b2] and is no shortcut name,
    yet it resolves, through the shortcut [a] and the walk of [b]. *)
Lemma ambiguous_prefix_reported_counterexample :
  let file := Some [("a", "/D"); ("a/b1", "/x"); ("a/b2", "/y")] in
  "a/b" <> ""
  /\ ~ In "a/b" (dict_keys (get_shortcut env_bob file))
  /\ names_starting_with "a/b" (get_shortcut env_bob file) = ["a/b1"; "a/b2"]
  /\ resolve_path fs_fruit env_bob file "a/b" = Ok "/D/banana".
Proof.
  cbv zeta. repeat split; try reflexivity; try discriminate.
  vm_compute. intuition discriminate.
Qed.

(* ================================================================== *)
(** * Listing *)

Lemma default_names (env : Env) :
  exists more,
    dict_keys (get_default_shortcuts env) = (["."; ".."; "..."; "tmp"] ++ more)%list.
Proof.
  unfold get_default_shortcuts.
  destruct (HOME env), (USERPROFILE env), (OLDPWD env);
    cbv [dict_set dict_keys map fst String.eqb Ascii.eqb Bool.eqb];
    eexists; reflexivity.
Qed.

(** The dots of the default names [.], [..] and [...] are wildcards in
    the group pattern: every name of one to three characters, none of
    them a newline, is found by it. *)
Lemma re_search_defaults_short (env : Env) (name : string) :
  1 <= String.length name <= 3 ->
  Forall (fun c => Ascii.eqb c newline = false) (list_ascii_of_string name) ->
  re_search_defaults (dict_keys (get_default_shortcuts env)) name = true.
Proof.
  intros Hlen Hnl. destruct (default_names env) as [more ->].
  unfold re_search_defaults.
  destruct name as [|a [|b [|c [|d name]]]]; simpl in Hlen; try lia;
    simpl in Hnl;
    repeat match goal with
           | H : Forall _ (_ :: _) |- _ => inversion H; subst; clear H
           end;
    cbn [app existsb re_alternative];
    change (Ascii.eqb "." ".") with true; cbv iota;
    repeat match goal with
           | H : Ascii.eqb _ newline = false |- _ => rewrite H; clear H
           end;
    reflexivity.
Qed.

(** C9. The custom shortcut [ko] is not a built-in name, yet
    [print_shortcuts] lists it in the group "Default shortcuts": the
    group pattern is built from the unescaped default names, and its
    alternative [..] finds every two-character name. *)
Theorem short_custom_name_listed_as_default :
  let shortcuts :=
    get_shortcut env_bob (Some [("ko", "/apps/Komodo-devel"); ("work", "/w")]) in
  ~ In "ko" (dict_keys (get_default_shortcuts env_bob))
  /\ group_shortcuts env_bob shortcuts
     = [ ("Default shortcuts", ["."; ".."; "..."; "ko"; "tmp"; "~"]);
         ("Custom shortcuts", ["work"]) ].
Proof.
  cbv zeta. split; [|reflexivity].
  vm_compute. intuition discriminate.
Qed.

(* ================================================================== *)
(** * More on the shortcut store *)

Lemma get_shortcut_entries (env : Env) (file : shortcuts_file) :
  get_shortcut env file =
  fold_left load_entry (file_entries file) (get_default_shortcuts env).
Proof. now destruct file. Qed.

Lemma load_last_wins (doc : xml_doc) (d : dict) (x : string) :
  dict_get (fold_left load_entry doc d) x =
  match dict_get (rev doc) x with
  | Some v => Some v
  | None => dict_get d x
  end.
Proof.
  induction doc as [|[n v] doc IH] using rev_ind; [reflexivity|].
  rewrite fold_left_app, rev_app_distr. cbn [fold_left rev app dict_get].
  unfold load_entry at 1. cbn [fst snd].
  destruct (String.eqb_spec n x) as [->|Hne].
  - apply dict_get_set_same.
  - rewrite dict_get_set_other by assumption. exact IH.
Qed.

(** X1. What [get_shortcut] gives for a name is the value of the last
    entry of that name in the shortcuts file, and the built-in default
    when the file has no such entry. *)
Theorem get_shortcut_last_wins (env : Env) (file : shortcuts_file) (x : string) :
  dict_get (get_shortcut env file) x =
  match dict_get (rev (file_entries file)) x with
  | Some v => Some v
  | None => dict_get (get_default_shortcuts env) x
  end.
Proof. rewrite get_shortcut_entries. apply load_last_wins. Qed.

Lemma load_keys_extend (doc : xml_doc) (d : dict) :
  exists more,
    dict_keys (fold_left load_entry doc d) = (dict_keys d ++ more)%list.
Proof.
  revert d; induction doc as [|[n v] doc IH]; intros d; cbn [fold_left].
  - exists []. now rewrite app_nil_r.
  - destruct (IH (load_entry d (n, v))) as [more Hmore]. rewrite Hmore.
    unfold load_entry; cbn [fst snd]. rewrite dict_set_keys.
    destruct (existsb (String.eqb n) (dict_keys d)).
    + now exists more.
    + exists (n :: more). now rewrite <- app_assoc.
Qed.

(** X2. Whatever the shortcuts file holds, the store that
    [get_shortcut] returns iterates first over the built-in names, in
    their fixed order, and then over the other names; so ".", "..",
    "..." and "tmp" are always in the store. *)
Theorem builtins_come_first (env : Env) (file : shortcuts_file) :
  (exists more,
      dict_keys (get_shortcut env file)
      = (dict_keys (get_default_shortcuts env) ++ more)%list)
  /\ (forall name, In name ["."; ".."; "..."; "tmp"] ->
                   dict_get (get_shortcut env file) name <> None).
Proof.
  assert (Hkeys : exists more,
             dict_keys (get_shortcut env file)
             = (dict_keys (get_default_shortcuts env) ++ more)%list).
  { rewrite get_shortcut_entries. apply load_keys_extend. }
  split; [exact Hkeys|].
  intros name Hin Hnone.
  destruct Hkeys as [more Hmore].
  destruct (default_names env) as [more' Hdef].
  assert (Hk : In name (dict_keys (get_shortcut env file))).
  { rewrite Hmore, Hdef. apply in_or_app; left. apply in_or_app; now left. }
  clear -Hk Hnone.
  induction (get_shortcut env file) as [|[k v] d IH]; simpl in *; [assumption|].
  destruct (String.eqb_spec k name); [discriminate|].
  destruct Hk; [contradiction|auto].
Qed.










(* ================================================================== *)
(** * More on the prefix resolver and the resolution engine *)

Lemma startswith_refl (s : string) : Py.startswith s s = true.
Proof.
  unfold Py.startswith. induction s as [|c s IH]; [reflexivity|].
  simpl. destruct (ascii_dec c c); [exact IH|contradiction].
Qed.

Lemma dict_get_In (d : dict) (k : string) :
  In k (dict_keys d) -> exists v, dict_get d k = Some v.
Proof.
  induction d as [|[k' v'] d IH]; simpl; [contradiction|].
  destruct (String.eqb_spec k' k); [eauto|].
  intros [?|Hin]; [contradiction|auto].
Qed.

Lemma get_shortcut_prefix_exact (t : string) (shortcuts : dict) :
  t <> "" ->
  In t (dict_keys shortcuts) ->
  get_shortcut_prefix t shortcuts = Ok (Some t).
Proof.
  intros Hne Hin. unfold get_shortcut_prefix.
  destruct (String.eqb_spec t "") as [?|_]; [contradiction|].
  now rewrite prefix_loop_exact.
Qed.

(** X6. A name returned by [get_shortcut_prefix] is always a name of
    the store that starts with the token; and it returns 0 exactly when
    the token is empty or is no name of the store and no name starts with
    it. *)
Theorem get_shortcut_prefix_sound (t : string) (shortcuts : dict) :
  (forall name,
      get_shortcut_prefix t shortcuts = Ok (Some name) ->
      t <> "" /\ In name (dict_keys shortcuts) /\ Py.startswith name t = true)
  /\ (get_shortcut_prefix t shortcuts = Ok None <->
      t = "" \/ (~ In t (dict_keys shortcuts)
                 /\ names_starting_with t shortcuts = [])).
Proof.
  destruct (String.eqb_spec t "") as [->|Hne].
  - split.
    + intros name H. discriminate.
    + split; [now left|reflexivity].
  - destruct (in_dec string_dec t (dict_keys shortcuts)) as [Hin|Hnin].
    + pose proof (get_shortcut_prefix_exact t shortcuts Hne Hin) as Hex.
      rewrite Hex. split.
      * intros name [= <-]. repeat split; auto. apply startswith_refl.
      * split; [discriminate|]. intros [?|[? _]]; contradiction.
    + rewrite get_shortcut_prefix_no_exact by assumption.
      assert (Hsub : forall n, In n (names_starting_with t shortcuts) ->
                In n (dict_keys shortcuts) /\ Py.startswith n t = true).
      { intros n Hn. unfold names_starting_with in Hn.
        now apply filter_In in Hn. }
      destruct (names_starting_with t shortcuts) as [|a [|b l]].
      * split; [discriminate|]. split; [now right|reflexivity].
      * split.
        -- intros name [= <-]. destruct (Hsub a) as [? ?]; [now left|auto].
        -- split; [discriminate|]. intros [?|[_ ?]]; [contradiction|discriminate].
      * split; [discriminate|].
        split; [discriminate|]. intros [?|[_ ?]]; [contradiction|discriminate].
Qed.

Lemma get_shortcut_prefix_sound_witness :
  "k" <> "" /\ In "ko" (dict_keys [("ko", "/k"); ("work", "/w")])
  /\ Py.startswith "ko" "k" = true.
Proof.
  apply (proj1 (get_shortcut_prefix_sound "k" [("ko", "/k"); ("work", "/w")]) "ko").
  reflexivity.
Defined.





(** X8. A non-empty token without a separator that is no shortcut
    name, to which the home-directory test does not apply and with which
    exactly one shortcut name starts, resolves to the target stored for
    that name. *)
Theorem resolve_unique_prefix (fs : FS) (env : Env) (file : shortcuts_file)
  (t name : string) :
  t <> "" ->
  Py.find t "/" = None ->
  Py.find t backslash = None ->
  under_home env t = false ->
  ~ In t (dict_keys (get_shortcut env file)) ->
  names_starting_with t (get_shortcut env file) = [name] ->
  exists target,
    dict_get (get_shortcut env file) name = Some target
    /\ resolve_path fs env file t = Ok target.
Proof.
  intros Hne Hslash Hback Hhome Hnin Hone.
  assert (Hin : In name (dict_keys (get_shortcut env file))).
  { assert (H : In name (names_starting_with t (get_shortcut env file)))
      by (rewrite Hone; now left).
    unfold names_starting_with in H. now apply filter_In in H. }
  destruct (dict_get_In _ _ Hin) as [target Hget].
  exists target. split; [exact Hget|].
  unfold resolve_path.
  destruct (String.eqb_spec t ""); [contradiction|]. cbn [negb].
  unfold resolve_target, split_tag. rewrite Hslash, Hback.
  rewrite (dict_get_None _ t Hnin).
  unfold under_home in Hhome. rewrite Hhome.
  rewrite get_shortcut_prefix_no_exact by assumption. rewrite Hone.
  cbn [bind]. unfold subscript. rewrite Hget. reflexivity.
Qed.

Lemma resolve_unique_prefix_witness :
  exists target,
    dict_get (get_shortcut env_bob (Some [("ko", "/apps/Komodo-devel")])) "ko"
    = Some target
    /\ resolve_path fs_fruit env_bob (Some [("ko", "/apps/Komodo-devel")]) "k"
       = Ok target.
Proof.
  apply (resolve_unique_prefix fs_fruit env_bob
           (Some [("ko", "/apps/Komodo-devel")]) "k" "ko").
  - discriminate.
  - reflexivity.
  - reflexivity.
  - reflexivity.
  - vm_compute. intuition discriminate.
  - reflexivity.
Defined.

(** ** Which exceptions leave [resolve_path] *)

Lemma find_dir_raises (fs : FS) (path comp : string) (entries : list string) :
  forall found e,
    find_dir fs path comp found entries = Raise e -> exists msg, e = GoError msg.
Proof.
  induction entries as [|d entries IH]; intros found e; simpl; [discriminate|].
  destruct (candidate fs path comp d); [|apply IH].
  destruct (found =? ""); [apply IH|].
  intros [= <-]. eauto.
Qed.

Lemma resolve_comp_raises (fs : FS) (prefix path comp : string) (e : exn) :
  resolve_comp fs prefix path comp = Raise e ->
  (exists msg, e = GoError msg) \/ e = OSError path.
Proof.
  unfold resolve_comp.
  destruct (isdir fs (posixpath.join path comp)); [discriminate|].
  destruct (listdir fs path) as [entries|]; cbn [bind];
    [|intros [= <-]; now right].
  destruct (find_dir fs path comp "" entries) as [found|e'] eqn:Hf; cbn [bind].
  - destruct (found =? ""); [|discriminate]. intros [= <-]. left; eauto.
  - intros [= <-]. left. eapply find_dir_raises; eauto.
Qed.

Lemma walk_comps_raises (fs : FS) (prefix : string) (comps : list string) :
  forall path e,
    walk_comps fs prefix path comps = Raise e ->
    (exists msg, e = GoError msg) \/ (exists p, e = OSError p).
Proof.
  induction comps as [|comp comps IH]; intros path e; cbn [walk_comps];
    [discriminate|].
  destruct (resolve_comp fs prefix path comp) as [path'|e'] eqn:Hr; cbn [bind].
  - apply IH.
  - intros [= <-]. apply resolve_comp_raises in Hr as [? | ->]; eauto.
Qed.

Lemma resolve_full_path_raises (fs : FS) (prefix suffix : string) (e : exn) :
  resolve_full_path fs prefix suffix = Raise e ->
  (exists msg, e = GoError msg) \/ (exists p, e = OSError p).
Proof.
  unfold resolve_full_path.
  destruct (isdir fs (posixpath.join prefix suffix)); [discriminate|].
  apply walk_comps_raises.
Qed.

Lemma get_shortcut_prefix_in_store (t name : string) (shortcuts : dict) :
  get_shortcut_prefix t shortcuts = Ok (Some name) ->
  In name (dict_keys shortcuts).
Proof.
  unfold get_shortcut_prefix. destruct (t =? ""); [discriminate|].
  destruct (in_dec string_dec t (dict_keys shortcuts)) as [Hin|Hnin].
  - rewrite prefix_loop_exact by assumption. now intros [= <-].
  - rewrite prefix_loop_no_exact by assumption. cbn [app].
    destruct (filter _ _) as [|a [|b l]] eqn:Hf; try discriminate.
    intros [= <-].
    assert (H : In a (filter (fun n => Py.startswith n t) (dict_keys shortcuts)))
      by (rewrite Hf; now left).
    now apply filter_In in H.
Qed.

Lemma get_shortcut_prefix_raises (t : string) (shortcuts : dict) (e : exn) :
  get_shortcut_prefix t shortcuts = Raise e -> exists msg, e = GoError msg.
Proof.
  unfold get_shortcut_prefix. destruct (t =? ""); [discriminate|].
  destruct (prefix_loop t (dict_keys shortcuts) []) as [n|[|a [|b l]]];
    try discriminate.
  intros [= <-]. eauto.
Qed.

Lemma tilde_default (env : Env) :
  dict_get (get_default_shortcuts env) "~" = None ->
  HOME env = None /\ USERPROFILE env = None.
Proof.
  unfold get_default_shortcuts.
  destruct (HOME env), (USERPROFILE env), (OLDPWD env); cbn; intros H;
    try discriminate; auto.
Qed.

(** X9. A [KeyError] leaves [resolve_path] in one case only: the head
    of the token is no shortcut name, the token lies below the home
    directory, and the store has no entry [~], which needs both [HOME]
    and [USERPROFILE] to be unset (and no [~] in the shortcuts file). The
    lookup after a prefix match never fails. *)
Theorem key_error_only_for_tilde (fs : FS) (env : Env) (file : shortcuts_file)
  (path k : string) :
  resolve_path fs env file path = Raise (KeyError k) ->
  k = "~"
  /\ under_home env path = true
  /\ dict_get (get_shortcut env file) "~" = None
  /\ HOME env = None /\ USERPROFILE env = None.
Proof.
  unfold resolve_path.
  destruct (negb (path =? "")); [|discriminate].
  set (shortcuts := get_shortcut env file).
  destruct (resolve_target fs env shortcuts path) as [[target suffix]|e] eqn:Ht;
    cbn [bind].
  - destruct (Py.if_truthy suffix) as [s|]; [|discriminate].
    intros H. apply resolve_full_path_raises in H as [[msg H]|[p H]]; discriminate.
  - intros [= ->]. revert Ht. unfold resolve_target.
    destruct (split_tag path) as [tag suffix].
    destruct (dict_get shortcuts tag); [discriminate|].
    fold (under_home env path).
    destruct (under_home env path) eqn:Hhome.
    + unfold subscript. destruct (dict_get shortcuts "~") eqn:Htilde;
        cbn [bind]; [discriminate|].
      intros [= <-].
      assert (Hd : dict_get (get_default_shortcuts env) "~" = None).
      { subst shortcuts. rewrite get_shortcut_entries, load_last_wins in Htilde.
        now destruct (dict_get (rev (file_entries file)) "~"). }
      apply tilde_default in Hd. tauto.
    + destruct (get_shortcut_prefix tag shortcuts) as [[name|]|e'] eqn:Hp;
        cbn [bind].
      * apply get_shortcut_prefix_in_store, dict_get_In in Hp as [v Hv].
        unfold subscript. rewrite Hv. discriminate.
      * destruct (isdir fs path); discriminate.
      * intros [= ->]. apply get_shortcut_prefix_raises in Hp as [msg Hp].
        discriminate.
Qed.

Lemma key_error_only_for_tilde_witness :
  "~" = "~"
  /\ under_home env_no_home "/home/bob/src" = true
  /\ dict_get (get_shortcut env_no_home None) "~" = None
  /\ HOME env_no_home = None /\ USERPROFILE env_no_home = None.
Proof.
  apply (key_error_only_for_tilde fs_fruit env_no_home None "/home/bob/src" "~").
  reflexivity.
Defined.

(** ** A walk below a directory that is gone *)

Lemma rstrip_length (s : string) (c : ascii) :
  String.length (Py.rstrip s c) <= String.length s.
Proof.
  destruct (rstrip_is_prefix s c) as [rest H].
  rewrite H at 2. rewrite append_length. lia.
Qed.

Lemma split_fixpoint_tail (p : string) :
  fst (posixpath.split p) = p -> snd (posixpath.split p) = "".
Proof.
  unfold posixpath.split; cbn [fst snd].
  set (i := Py.rfind_succ p "/").
  pose proof (slice_to_from i p) as Hp.
  pose proof (rstrip_length (Py.slice_to i p) "/") as Hr.
  intros Hfix.
  assert (Hlen : String.length p <= String.length (Py.slice_to i p)).
  { destruct (negb (Py.slice_to i p =? "")
              && negb (Py.slice_to i p =? Py.repeat_char "/"
                         (String.length (Py.slice_to i p)))).
    - rewrite <- Hfix at 1. exact Hr.
    - now rewrite Hfix. }
  apply (f_equal String.length) in Hp. rewrite append_length in Hp.
  destruct (Py.slice_from i p); [reflexivity|]. simpl in Hp. lia.
Qed.

Lemma split_loop_ends_empty (fuel : nat) :
  forall head last_head comps r,
    head <> last_head ->
    split_loop fuel head last_head comps = Some r ->
    exists before, r = (before ++ [""])%list.
Proof.
  induction fuel as [|fuel IH]; intros head last_head comps r Hne;
    cbn [split_loop];
    destruct (String.eqb_spec head last_head); try contradiction;
    [discriminate|].
  destruct (posixpath.split head) as [head' tail] eqn:Hs.
  destruct (String.eqb_spec head' head) as [->|Hne'].
  - pose proof (split_fixpoint_tail head) as Ht. rewrite Hs in Ht.
    cbn [fst snd] in Ht. rewrite (Ht eq_refl).
    destruct fuel; cbn [split_loop]; rewrite String.eqb_refl;
      intros [= <-]; eauto.
  - now apply IH.
Qed.

(** The first of the components of a non-empty sub-path is always the
    empty string: the walk starts by stepping from [normpath(prefix)] to
    the same path with a separator after it. *)
Lemma path_components_head (suffix : string) :
  suffix <> "" -> exists rest, path_components suffix = "" :: rest.
Proof.
  intros Hne. unfold path_components.
  destruct (split_loop_terminates suffix) as [comps Hc]. rewrite Hc.
  apply split_loop_ends_empty in Hc as [before ->]; [|assumption].
  rewrite rev_app_distr. cbn. eauto.
Qed.

(** X10. When the prefix of a walk is not a directory (neither the join
    with the sub-path nor the prefix itself exists) and cannot be listed,
    [resolve_full_path] does not fail with a [GoError]: the [OSError] of
    [os.listdir] on the normalised prefix leaves it, for every non-empty
    sub-path. *)
Theorem walk_below_missing_directory (fs : FS) (prefix suffix : string) :
  suffix <> "" ->
  isdir fs (posixpath.join prefix suffix) = false ->
  isdir fs (walk_root prefix) = false ->
  listdir fs (posixpath.normpath prefix) = None ->
  resolve_full_path fs prefix suffix
  = Raise (OSError (posixpath.normpath prefix)).
Proof.
  intros Hne Hjoin Hroot Hlist. unfold resolve_full_path. rewrite Hjoin.
  destruct (path_components_head suffix Hne) as [rest ->].
  cbn [walk_comps]. unfold resolve_comp.
  change (posixpath.join (posixpath.normpath prefix) "") with (walk_root prefix).
  now rewrite Hroot, Hlist.
Qed.

Lemma walk_below_missing_directory_witness :
  resolve_full_path fs_fruit "/gone" "sub" = Raise (OSError "/gone").
Proof.
  apply (walk_below_missing_directory fs_fruit "/gone" "sub");
    [discriminate | reflexivity | reflexivity | reflexivity].
Defined.

(** ** Components without wildcard characters match by prefix *)

Lemma star_matches_all (s : list ascii) : fnmatch.matches [fnmatch.TStar] s = true.
Proof.
  cbn [fnmatch.matches]. induction s as [|c s IH]; [reflexivity|].
  destruct s; [reflexivity|]. cbn. cbn in IH. exact IH.
Qed.

Lemma literal_star_matches (comp : string) :
  glob_free comp = true ->
  forall name,
    fnmatch.matches
      (fnmatch.tokens 0 (list_ascii_of_string (comp ++ "*")))
      (list_ascii_of_string name)
    = Py.startswith name comp.
Proof.
  unfold Py.startswith.
  induction comp as [|c comp IH]; intros Hfree name.
  - change (list_ascii_of_string ("" ++ "*")) with ["*"%char].
    change (fnmatch.tokens 0 ["*"%char]) with [fnmatch.TStar].
    rewrite star_matches_all. now destruct name.
  - cbn [glob_free] in Hfree.
    apply andb_true_iff in Hfree as [Hfree Hrest].
    apply andb_true_iff in Hfree as [Hfree Hbr].
    apply andb_true_iff in Hfree as [Hst Hqu].
    apply negb_true_iff in Hst, Hqu, Hbr.
    cbn [append list_ascii_of_string fnmatch.tokens].
    rewrite Hst, Hqu, Hbr.
    destruct name as [|a name]; [reflexivity|].
    cbn [list_ascii_of_string fnmatch.matches fnmatch.token_matches String.prefix].
    rewrite (IH Hrest name).
    destruct (ascii_dec c a) as [->|Hne].
    + now rewrite Ascii.eqb_refl.
    + apply Ascii.eqb_neq in Hne. now rewrite Hne.
Qed.

(** X11. For a component [comp] without the characters [*], [?] and
    [[], the entries that the listing loop of the walk accepts are exactly
    the directories whose name starts with [comp]: the glob match with
    [comp + "*"] is a plain, case-sensitive prefix test. *)
Theorem candidate_is_prefix_match (fs : FS) (path comp directory : string) :
  glob_free comp = true ->
  candidate fs path comp directory
  = Py.startswith directory comp && isdir fs (posixpath.join path directory).
Proof.
  intros Hfree. unfold candidate, fnmatch.fnmatch.
  now rewrite literal_star_matches.
Qed.

Lemma candidate_is_prefix_match_witness :
  candidate fs_fruit "/D/" "ban" "banana"
  = Py.startswith "banana" "ban" && isdir fs_fruit (posixpath.join "/D/" "banana").
Proof.
  apply (candidate_is_prefix_match fs_fruit "/D/" "ban" "banana"). reflexivity.
Defined.

(** ** The groups of the listing *)

Lemma insert_sorted_perm (x : string) (l : list string) :
  Permutation (Py.insert_sorted x l) (x :: l).
Proof.
  induction l as [|y l IH]; simpl; [apply Permutation_refl|].
  destruct (Py.str_le x y); [apply Permutation_refl|].
  eapply perm_trans; [apply perm_skip, IH|apply perm_swap].
Qed.

Lemma sort_perm (l : list string) : Permutation (Py.sort l) l.
Proof.
  induction l as [|x l IH]; simpl; [constructor|].
  eapply perm_trans; [apply insert_sorted_perm|now apply perm_skip].
Qed.

Lemma insert_sorted_Sorted (x : string) (l : list string) :
  Sorted str_le_prop l -> Sorted str_le_prop (Py.insert_sorted x l).
Proof.
  induction l as [|y l IH]; intros Hs; simpl.
  - repeat constructor.
  - destruct (Py.str_le x y) eqn:Hxy.
    + constructor; [assumption|]. now constructor.
    + inversion Hs as [|? ? Hs' Hhd]; subst.
      constructor; [now apply IH|].
      assert (Hyx : str_le_prop y x).
      { unfold str_le_prop, Py.str_le in *.
        destruct (String.leb_total x y); congruence. }
      destruct l as [|z l]; simpl.
      * now constructor.
      * destruct (Py.str_le x z); constructor; try assumption.
        now inversion Hhd.
Qed.

Lemma sort_Sorted (l : list string) : Sorted str_le_prop (Py.sort l).
Proof.
  induction l as [|x l IH]; simpl; [constructor|].
  now apply insert_sorted_Sorted.
Qed.

Lemma groups_add_perm (g : groups) (title shortcut : string) :
  Permutation (concat (map snd (groups_add g title shortcut)))
    (shortcut :: concat (map snd g)).
Proof.
  induction g as [|[t members] g IH]; cbn [groups_add].
  - apply Permutation_refl.
  - destruct (t =? title); cbn [map snd concat].
    + rewrite <- app_assoc. cbn [app].
      apply Permutation_sym, Permutation_middle.
    + eapply perm_trans; [apply Permutation_app_head, IH|].
      apply Permutation_sym, Permutation_middle.
Qed.

Lemma groups_add_titles (g : groups) (title shortcut t : string)
  (members : list string) :
  In (t, members) (groups_add g title shortcut) ->
  t = title \/ exists members', In (t, members') g.
Proof.
  induction g as [|[t' m'] g IH]; cbn [groups_add].
  - intros [[= <- <-]|[]]. now left.
  - destruct (String.eqb_spec t' title) as [->|Hne].
    + intros [[= <- <-]|Hin]; [now left|]. right. exists members. now right.
    + intros [[= <- <-]|Hin].
      * right. exists m'. now left.
      * apply IH in Hin as [?|[m Hm]]; [now left|].
        right. exists m. now right.
Qed.

(** X12. The groups that [print_shortcuts] builds hold every name of
    the store exactly as often as the store iterates over it (none lost,
    none repeated); each group is sorted by name and is titled either
    "Default shortcuts" or "Custom shortcuts". *)
Theorem group_shortcuts_partition (env : Env) (shortcuts : dict) :
  Permutation (concat (map snd (group_shortcuts env shortcuts)))
    (dict_keys shortcuts)
  /\ (forall title members,
         In (title, members) (group_shortcuts env shortcuts) ->
         Sorted str_le_prop members
         /\ (title = default_title \/ title = custom_title)).
Proof.
  unfold group_shortcuts.
  set (defaults := dict_keys (get_default_shortcuts env)).
  set (step := fun grouped shortcut =>
                 if re_search_defaults defaults shortcut
                 then groups_add grouped default_title shortcut
                 else groups_add grouped custom_title shortcut).
  assert (Hperm : forall names g,
             Permutation (concat (map snd (fold_left step names g)))
               (names ++ concat (map snd g))).
  { induction names as [|n names IH]; intros g; cbn [fold_left app].
    - apply Permutation_refl.
    - eapply perm_trans; [apply IH|].
      eapply perm_trans; [|apply Permutation_sym, Permutation_middle].
      apply Permutation_app_head. unfold step.
      destruct (re_search_defaults defaults n); apply groups_add_perm. }
  assert (Htitles : forall names g t m,
             In (t, m) (fold_left step names g) ->
             t = default_title \/ t = custom_title
             \/ exists m', In (t, m') g).
  { induction names as [|n names IH]; intros g t m; cbn [fold_left].
    - intros Hin. right; right. eauto.
    - intros Hin. apply IH in Hin as [?|[?|[m' Hm']]]; auto.
      unfold step in Hm'.
      destruct (re_search_defaults defaults n);
        apply groups_add_titles in Hm' as [?|?]; auto. }
  assert (Hsortperm : forall g : groups,
             Permutation
               (concat (map snd (map (fun tm => (fst tm, Py.sort (snd tm))) g)))
               (concat (map snd g))).
  { induction g as [|[t m] g IH]; cbn; [constructor|].
    apply Permutation_app; [apply sort_perm|exact IH]. }
  split.
  - eapply perm_trans; [apply Hsortperm|].
    eapply perm_trans; [apply Hperm|]. cbn. now rewrite app_nil_r.
  - intros title members Hin.
    apply in_map_iff in Hin as [[t m] [[= <- <-] Hin]]. cbn [fst snd].
    split; [apply sort_Sorted|].
    apply Htitles in Hin as [?|[?|[m' []]]]; auto.
Qed.

(* ================================================================== *)
(** * The shell script and the actions of [main] *)

Lemma generate_shell_script_some (fs : FS) (env : Env) (file : shortcuts_file)
  (path : string) :
  generate_shell_script fs env file (Some path) =
  match resolve_path fs env file path with
  | Ok target =>
      Ok (noop_script ++ (if target =? "" then ""
                          else "cd " ++ dquote ++ target ++ dquote ++ nl))
  | Raise e => Raise e
  end.
Proof.
  unfold generate_shell_script.
  destruct (resolve_path fs env file path) as [target|e]; cbn [bind]; [|reflexivity].
  unfold Py.if_truthy, Py.truthy.
  destruct (target =? ""); reflexivity.
Qed.


Lemma rstrip_unchanged (s : string) (c : ascii) :
  Py.endswith s c = false -> Py.rstrip s c = s.
Proof.
  induction s as [|a s IH]; [reflexivity|].
  cbn [Py.endswith Py.rstrip]. destruct s as [|b s].
  - intros ->. reflexivity.
  - intros H. rewrite (IH H). reflexivity.
Qed.

(** X14. [go] without an argument changes to [$HOME]: when [HOME] is
    an absolute path without a trailing separator that is an existing
    directory, and the empty string is no shortcut name, the cd action
    with no argument returns 0, writes nothing to stderr and leaves the
    script [cd "$HOME"]. *)
Theorem bare_go_goes_home (fs : FS) (env : Env) (file : shortcuts_file)
  (h argv : string) :
  HOME env = Some h ->
  Py.startswith h "/" = true ->
  Py.endswith h "/" = false ->
  isdir fs h = true ->
  dict_get (get_shortcut env file) "" = None ->
  main_cd fs env file [] argv
  = mkRun (Ok 0) "" "" file
      (noop_script ++ "cd " ++ dquote ++ h ++ dquote ++ nl).
Proof.
  intros Hhome Habs Hend Hdir Hempty.
  destruct h as [|c h]; [discriminate|].
  assert (Hc : c = "/"%char).
  { unfold Py.startswith in Habs. cbn [String.prefix] in Habs.
    destruct (ascii_dec "/" c); [now subst|discriminate]. }
  subst c.
  assert (Hres : resolve_path fs env file (String "/" h) = Ok (String "/" h)).
  { unfold resolve_path. cbn [String.eqb negb].
    change (String "/" h =? "") with false. cbn [negb].
    assert (Hst : split_tag (String "/" h) = ("", Some h)) by reflexivity.
    unfold resolve_target. rewrite Hst, Hempty.
    assert (Hexp : expanduser_tilde env = String "/" h).
    { unfold expanduser_tilde. rewrite Hhome.
      now rewrite (rstrip_unchanged _ _ Hend). }
    rewrite Hexp, String.eqb_refl, andb_false_r.
    change (get_shortcut_prefix "" (get_shortcut env file)) with (@Ok (option string) None).
    cbn [bind]. rewrite Hdir. cbn [bind].
    unfold Py.if_truthy, Py.truthy.
    change (String "/" h =? "") with false. cbn [negb].
    unfold resolve_full_path.
    assert (Hj : posixpath.join "" (String "/" h) = String "/" h).
    { unfold posixpath.join, posixpath.sep. now rewrite Habs. }
    now rewrite Hj, Hdir. }
  unfold main_cd, get_home_dir. rewrite Hhome.
  rewrite generate_shell_script_some, Hres.
  change (String "/" h =? "") with false. reflexivity.
Qed.

Lemma bare_go_goes_home_witness :
  main_cd fs_fruit env_bob (Some [("d", "/D")]) [] "['go']"
  = mkRun (Ok 0) "" "" (Some [("d", "/D")])
      (noop_script ++ "cd " ++ dquote ++ "/home/bob" ++ dquote ++ nl).
Proof.
  apply (bare_go_goes_home fs_fruit env_bob (Some [("d", "/D")]) "/home/bob");
    reflexivity.
Defined.









Lemma opt_in_spec (opt a b : string) :
  opt_in opt a b = true <-> opt = a \/ opt = b.
Proof.
  unfold opt_in. rewrite orb_true_iff, !String.eqb_eq. tauto.
Qed.

Lemma select_action_spec (optlist : list string) :
  forall action,
    (forall a, select_action action optlist = inr a ->
               (a = action
                \/ In a ["cd"; "print"; "set"; "add"; "delete"; "list"; "open"])
               /\ ~ Exists ends_main optlist)
    /\ (forall e, select_action action optlist = inl e ->
                  Exists ends_main optlist).
Proof.
  induction optlist as [|opt rest IH]; intros action; cbn [select_action].
  - split.
    + intros a [= <-]. split; [now left|]. intros H; inversion H.
    + discriminate.
  - destruct (opt_in opt "-h" "--help") eqn:Hh.
    { apply opt_in_spec in Hh. split; [discriminate|].
      intros _ _. constructor. unfold ends_main.
      destruct Hh as [-> | ->]; simpl; tauto. }
    destruct (opt_in opt "-V" "--version") eqn:HV.
    { apply opt_in_spec in HV. split; [discriminate|].
      intros _ _. constructor. unfold ends_main.
      destruct HV as [-> | ->]; simpl; tauto. }
    assert (Hnot : ~ ends_main opt).
    { unfold ends_main; simpl. intros [<-|[<-|[<-|[<-|[]]]]];
        cbv in Hh, HV; discriminate. }
    assert (Hstep : forall action',
               (action' = action
                \/ In action' ["cd"; "print"; "set"; "add"; "delete"; "list"; "open"]) ->
               (forall a, select_action action' rest = inr a ->
                          (a = action
                           \/ In a ["cd"; "print"; "set"; "add"; "delete"; "list"; "open"])
                          /\ ~ Exists ends_main (opt :: rest))
               /\ (forall e, select_action action' rest = inl e ->
                             Exists ends_main (opt :: rest))).
    { intros action' Hact. destruct (IH action') as [IHr IHl]. split.
      - intros a Ha. destruct (IHr a Ha) as [Hin Hex]. split.
        + destruct Hin as [->|Hin]; [exact Hact|now right].
        + intros H. inversion H; subst; contradiction.
      - intros e He. apply Exists_cons_tl. eapply IHl; eauto. }
    repeat match goal with
           | |- context [if opt_in opt ?a ?b then _ else _] =>
               destruct (opt_in opt a b);
               [apply Hstep; right; simpl; tauto|]
           end.
    apply Hstep. now left.
Qed.

(** X16. The loop over the options of [main] either stops at a help or
    version option, exactly when the option list holds one, or ends with
    one of the seven actions cd, print, set, add, delete, list and open:
    the "unknown action" branch at the end of [main] is never taken. *)
Theorem select_action_known (optlist : list string) :
  match select_action "cd" optlist with
  | inr action =>
      In action ["cd"; "print"; "set"; "add"; "delete"; "list"; "open"]
      /\ ~ Exists ends_main optlist
  | inl _ => Exists ends_main optlist
  end.
Proof.
  destruct (select_action_spec optlist "cd") as [Hr Hl].
  destruct (select_action "cd" optlist) as [e|a].
  - eapply Hl; eauto.
  - destruct (Hr a eq_refl) as [[->|Hin] Hex]; split; auto. simpl; tauto.
Qed.

(** ** The list action *)







(** ** The search along PATH *)

(** X20. When [_find_on_path] returns a path, it is the join of [prog]
    with the first folder of [PATH] (split at the colons, in order) under
    which [prog] is a file; it returns 0 exactly when [PATH] is set and no
    folder has such a file, and 1 (with a message) when [PATH] is not set. *)
Theorem find_on_path_first (isfile : string -> bool) (PATH : option string)
  (prog : string) :
  match fst (_find_on_path isfile PATH prog) with
  | inr fullpath =>
      exists path before folder after,
        PATH = Some path
        /\ Py.split path ":" = (before ++ folder :: after)%list
        /\ fullpath = posixpath.join folder prog
        /\ isfile fullpath = true
        /\ Forall (fun f => isfile (posixpath.join f prog) = false) before
  | inl code =>
      (code = 1 /\ PATH = None)
      \/ (code = 0 /\ exists path,
             PATH = Some path
             /\ Forall (fun f => isfile (posixpath.join f prog) = false)
                  (Py.split path ":"))
  end.
Proof.
  unfold _find_on_path. destruct PATH as [path|]; cbn [fst]; [|now left].
  assert (H : forall folders,
             match find_in_folders isfile prog folders with
             | inr fullpath =>
                 exists before folder after,
                   folders = (before ++ folder :: after)%list
                   /\ fullpath = posixpath.join folder prog
                   /\ isfile fullpath = true
                   /\ Forall (fun f => isfile (posixpath.join f prog) = false) before
             | inl code =>
                 code = 0
                 /\ Forall (fun f => isfile (posixpath.join f prog) = false) folders
             end).
  { induction folders as [|f folders IH]; cbn [find_in_folders].
    - split; constructor.
    - destruct (isfile (posixpath.join f prog)) eqn:Hf.
      + exists [], f, folders. repeat split; auto.
      + destruct (find_in_folders isfile prog folders) as [code|fullpath].
        * destruct IH as [-> IH]. split; [reflexivity|]. now constructor.
        * destruct IH as (before & folder & after & -> & -> & Hfile & Hbefore).
          exists (f :: before), folder, after. repeat split; auto. }
  specialize (H (Py.split path ":")).
  destruct (find_in_folders isfile prog (Py.split path ":")) as [code|fullpath].
  - destruct H as [-> H]. right. split; [reflexivity|]. eauto.
  - destruct H as (before & folder & after & H1 & H2 & H3 & H4).
    exists path, before, folder, after. auto.
Qed.

(** X18. [go] without an argument when neither [HOME] nor
    [USERPROFILE] is set: [get_home_dir] reports that it cannot find the
    home directory and returns the empty string, which [resolve_path]
    refuses; the cd action returns 1 with both messages on stderr and
    leaves the no-op script. *)
Theorem bare_go_without_home (fs : FS) (env : Env) (file : shortcuts_file)
  (argv : string) :
  HOME env = None ->
  USERPROFILE env = None ->
  main_cd fs env file [] argv
  = mkRun (Ok 1) ""
      (error "Cannot find home directory." ++ error "no path was given")
      file noop_script.
Proof.
  intros Hhome Hprofile. unfold main_cd, get_home_dir.
  rewrite Hhome, Hprofile. reflexivity.
Qed.

Lemma bare_go_without_home_witness :
  main_cd fs_fruit env_no_home None [] "['go']"
  = mkRun (Ok 1) ""
      (error "Cannot find home directory." ++ error "no path was given")
      None noop_script.
Proof.
  apply (bare_go_without_home fs_fruit env_no_home None); reflexivity.
Defined.

Lemma builtins_come_first_witness :
  dict_get (get_shortcut env_bob (Some [("tmp", "/var/tmp"); ("ko", "/k")])) "..."
  <> None.
Proof.
  apply (proj2 (builtins_come_first env_bob
                  (Some [("tmp", "/var/tmp"); ("ko", "/k")])) "...").
  simpl. tauto.
Defined.

Lemma group_shortcuts_partition_witness :
  Sorted str_le_prop ["work"; "zebra"]
  /\ ("Custom shortcuts" = default_title \/ "Custom shortcuts" = custom_title).
Proof.
  apply (proj2 (group_shortcuts_partition env_bob
                  (get_shortcut env_bob (Some [("zebra", "/z"); ("work", "/w")])))
           "Custom shortcuts" ["work"; "zebra"]).
  vm_compute. tauto.
Defined.
